(** * Session coordinator and wallet SSN step: a shallow embedding

    The development follows two TypeScript units of the application:

    - the social-security-number sub-step of the wallet onboarding form
      ([validate]), and
    - the session actions module ([signOut], [checkIfActionIsAllowed],
      [signInWithValidateCode], [initAutoAuthState], [setSupportAuthToken],
      [reauthenticatePusher], [authenticatePusher], [waitForUserSignIn],
      [canAccessRouteByAnonymousUser]).

    JavaScript objects are finite maps from field names to values, the
    module-level [let] variables are fields of an explicit [World], calls into
    collaborators that live outside the two units (logging, navigation, the
    command client, the real-time channel library) are recorded in order in
    the world's [trace], and a promise continuation ([.then (...)]) is a
    function that the environment runs later with the settled value.
    Collaborators are taken to return normally; the callback handed to
    [authenticatePusher] is the exception: it may throw. *)

From Stdlib Require Import ZArith Ascii String List.
From stdpp Require Import gmap strings list fin_maps pretty.

Local Open Scope string_scope.
Local Open Scope Z_scope.

(** ** JavaScript values *)

(** [CONST.AUTO_AUTH_STATE]: the four states of the magic-link sign-in. *)
Inductive AutoAuthState : Type :=
  | NOT_STARTED
  | SIGNING_IN
  | JUST_SIGNED_IN
  | FAILED.

#[global] Instance AutoAuthState_eq_dec : EqDecision AutoAuthState.
Proof. solve_decision. Defined.

(** Field values of the objects kept in the store. *)
Inductive value : Type :=
  | VUndefined
  | VNull
  | VBool (b : bool)
  | VNum (n : Z)
  | VStr (s : string)
  | VAuto (a : AutoAuthState).

#[global] Instance value_eq_dec : EqDecision value.
Proof. solve_decision. Defined.

Abbreviation obj := (gmap string value).

(** Truthiness of a [string | null | undefined]. *)
Definition truthy (o : option string) : bool :=
  match o with
  | Some s => negb (String.eqb s "")
  | None => false
  end.

(** [a ?? b] on an optional string. *)
Definition nullish (o : option string) (d : string) : string :=
  match o with
  | Some s => s
  | None => d
  end.

(** Reading a string-typed field: anything but a string reads as absent. *)
Definition str_field (k : string) (o : obj) : option string :=
  match o !! k with
  | Some (VStr s) => Some s
  | _ => None
  end.

(** [xs.includes(x)] *)
Definition includes {A} `{EqDecision A} (xs : list A) (x : A) : bool :=
  existsb (fun y => bool_decide (y = x)) xs.

(** ** The reactive store *)

Module Onyx.

(** [ONYXKEYS] *)
Inductive key : Type :=
  | SESSION
  | ACCOUNT
  | CREDENTIALS
  | NVP_PREFERRED_LOCALE
  | LAST_OPENED_PUBLIC_ROOM_ID
  | LAST_SHOWN_SPLASH_VIDEO.

#[global] Instance key_eq_dec : EqDecision key.
Proof. solve_decision. Defined.

(** [Onyx.METHOD] *)
Inductive method : Type :=
  | MERGE
  | SET.

(** What is stored under a key: an object or a plain value. *)
Inductive entry : Type :=
  | EObj (o : obj)
  | EVal (v : value).

Definition store : Type := key -> option entry.

(** [OnyxUpdate] *)
Record update : Type := mkUpdate {
  onyxMethod : method;
  ukey : key;
  uvalue : obj;
}.

(** Modelled from the spec: the reactive store is an external dependency
    that is not under src/; [merge (key, partialValue)] overlays the
    fields of the partial value on the stored object: a field given as
    [null] is removed, a field given as [undefined] is skipped, and every
    field the partial value does not name keeps its stored value. *)
Definition merge_field (old : option value) (new : option value) : option value :=
  match new with
  | None => old
  | Some VUndefined => old
  | Some VNull => None
  | Some v => Some v
  end.

Definition merge_obj (old patch : obj) : obj :=
  merge merge_field old patch.

Definition as_obj (e : option entry) : obj :=
  match e with
  | Some (EObj o) => o
  | _ => ∅
  end.

Definition write (k : key) (e : entry) (s : store) : store :=
  fun k' => if decide (k' = k) then Some e else s k'.

(** Modelled from the spec: [merge] and [set] of the external store. *)
Definition merge (k : key) (patch : obj) (s : store) : store :=
  write k (EObj (merge_obj (as_obj (s k)) patch)) s.

Definition set (k : key) (o : obj) (s : store) : store :=
  write k (EObj o) s.

Definition apply (u : update) (s : store) : store :=
  match onyxMethod u with
  | MERGE => merge (ukey u) (uvalue u) s
  | SET => set (ukey u) (uvalue u) s
  end.

Definition apply_all (us : list update) (s : store) : store :=
  fold_left (fun s u => apply u s) us s.

(** The session object currently stored. *)
Definition session (s : store) : obj := as_obj (s SESSION).

End Onyx.

(** ** Rate limiting *)

Module Lodash.

(** The options object of [debounce]; [maxWait = None] when the option is
    not given. *)
Record options : Type := mkOptions {
  leading : bool;
  maxWait : option Z;
  trailing : bool;
}.

(** The closure variables of one debounced function.  [lastArgs] records
    whether arguments of a call are held for a later invocation, [timerId]
    the time at which the pending timer is due. *)
Record state : Type := mkState {
  lastArgs : bool;
  lastCallTime : option Z;
  lastInvokeTime : Z;
  timerId : option Z;
}.

Definition init : state :=
  {| lastArgs := false; lastCallTime := None; lastInvokeTime := 0; timerId := None |}.

Section Debounce.

Variable wait : Z.
Variable opts : options.

(** Modelled from the spec: [throttle] comes from the lodash library, which
    is not under src/.  The spec describes it as rate limiting with a
    minimum of [wait] milliseconds between executions and an optional
    trailing call; the definitions of this section follow the library's
    algorithm ([debounce] with [maxWait]), each returning whether the
    wrapped function was executed. *)
Definition maxing : bool :=
  match maxWait opts with Some _ => true | None => false end.

Definition maxWaitValue : Z :=
  match maxWait opts with Some m => Z.max m wait | None => 0 end.

Definition invokeFunc (time : Z) (s : state) : bool * state :=
  (true, {| lastArgs := false; lastCallTime := lastCallTime s;
            lastInvokeTime := time; timerId := timerId s |}).

Definition leadingEdge (time : Z) (s : state) : bool * state :=
  let s1 := {| lastArgs := lastArgs s; lastCallTime := lastCallTime s;
               lastInvokeTime := time; timerId := Some (time + wait) |} in
  if leading opts then invokeFunc time s1 else (false, s1).

Definition remainingWait (time : Z) (s : state) : Z :=
  let timeSinceLastCall := time - default 0 (lastCallTime s) in
  let timeSinceLastInvoke := time - lastInvokeTime s in
  let timeWaiting := wait - timeSinceLastCall in
  if maxing then Z.min timeWaiting (maxWaitValue - timeSinceLastInvoke)
  else timeWaiting.

Definition shouldInvoke (time : Z) (s : state) : bool :=
  match lastCallTime s with
  | None => true
  | Some lc =>
      let timeSinceLastCall := time - lc in
      let timeSinceLastInvoke := time - lastInvokeTime s in
      (wait <=? timeSinceLastCall) || (timeSinceLastCall <? 0)
      || (maxing && (maxWaitValue <=? timeSinceLastInvoke))
  end.

Definition trailingEdge (time : Z) (s : state) : bool * state :=
  let s1 := {| lastArgs := lastArgs s; lastCallTime := lastCallTime s;
               lastInvokeTime := lastInvokeTime s; timerId := None |} in
  if trailing opts && lastArgs s1 then invokeFunc time s1
  else (false, {| lastArgs := false; lastCallTime := lastCallTime s1;
                  lastInvokeTime := lastInvokeTime s1; timerId := None |}).

(** The timer callback, run by the environment at [time]. *)
Definition timerExpired (time : Z) (s : state) : bool * state :=
  if shouldInvoke time s then trailingEdge time s
  else (false, {| lastArgs := lastArgs s; lastCallTime := lastCallTime s;
                  lastInvokeTime := lastInvokeTime s;
                  timerId := Some (time + remainingWait time s) |}).

(** One call of the debounced function at [time]. *)
Definition debounced (time : Z) (s : state) : bool * state :=
  let isInvoking := shouldInvoke time s in
  let s1 := {| lastArgs := true; lastCallTime := Some time;
               lastInvokeTime := lastInvokeTime s; timerId := timerId s |} in
  let otherwise :=
    match timerId s1 with
    | None => (false, {| lastArgs := lastArgs s1; lastCallTime := lastCallTime s1;
                         lastInvokeTime := lastInvokeTime s1;
                         timerId := Some (time + wait) |})
    | Some _ => (false, s1)
    end in
  if isInvoking then
    match timerId s1 with
    | None => leadingEdge time s1
    | Some _ =>
        if maxing then
          invokeFunc time {| lastArgs := lastArgs s1; lastCallTime := lastCallTime s1;
                             lastInvokeTime := lastInvokeTime s1;
                             timerId := Some (time + wait) |}
        else otherwise
    end
  else otherwise.

End Debounce.

(** [throttle (func, wait, {leading, trailing})]: both options default to
    [true]; the result is [debounce] with [maxWait = wait]. *)
Definition throttleOptions (lead trail : option bool) : options :=
  {| leading := default true lead; maxWait := None; trailing := default true trail |}.

Definition throttle (wait : Z) (lead trail : option bool) : options :=
  {| leading := leading (throttleOptions lead trail);
     maxWait := Some wait;
     trailing := trailing (throttleOptions lead trail) |}.

(** What the environment does to a throttled function. *)
Inductive action : Type :=
  | Call (time : Z)
  | Timer (time : Z).

(** A timer only runs when it is armed and due. *)
Definition step (wait : Z) (opts : options) (a : action) (s : state) : bool * state :=
  match a with
  | Call t => debounced wait opts t s
  | Timer t =>
      match timerId s with
      | Some due => if due <=? t then timerExpired wait opts t s else (false, s)
      | None => (false, s)
      end
  end.

(** Number of executions of the wrapped function along a run. *)
Fixpoint executions (wait : Z) (opts : options) (acts : list action) (s : state) : nat * state :=
  match acts with
  | [] => (0%nat, s)
  | a :: rest =>
      let '(fired, s1) := step wait opts a s in
      let '(n, s2) := executions wait opts rest s1 in
      ((if fired then S n else n), s2)
  end.

End Lodash.

(** ** Constants that the modules import *)

(** [CONST], [CONFIG] and [ROUTES] are imported by the session module but
    are not part of it; the values it uses are collected here. *)
Record Constants : Type := mkConstants {
  PARTNER_NAME : string;
  PARTNER_PASSWORD : string;
  JSON_CODE_SUCCESS : Z;
  JSON_CODE_NOT_AUTHENTICATED : Z;
  SIGN_IN_MODAL : string;
  REPORT_WITH_ID_DETAILS : string;
  REPORT_WITH_ID_DETAILS_SHARE_CODE : string;
  DEFAULT_ACCOUNT_DATA : obj;
  VALIDATE_CODE_FORM : string;
  VALIDATE_TFA_CODE_FORM : string;
}.

(** ** The world of the session module *)

(** [OnyxData]: the three patch lists handed to the command client. *)
Record OnyxData : Type := mkOnyxData {
  optimisticData : list Onyx.update;
  successData : list Onyx.update;
  failureData : list Onyx.update;
}.

Definition noData : OnyxData :=
  {| optimisticData := []; successData := []; failureData := [] |}.

(** Calls into collaborators, in the order in which they are made. *)
Inductive Event : Type :=
  | LogInfo (message : string)
  | LogHmmm (message : string)
  | ConsoleDebug (message : string)
  | OnyxMerge (k : Onyx.key) (patch : obj)
  | OnyxMergeValue (k : Onyx.key) (v : value)
  | OnyxSet (k : Onyx.key) (o : obj)
  | ApiWrite (command : string) (params : obj) (data : OnyxData)
  | ApiMakeRequestWithSideEffects (command : string) (params : obj)
  | ClearCache
  | TimingClearData
  | HideContextMenu (shouldDelay : bool)
  | RedirectToSignIn
  | NavigationNavigate (route : string)
  | LinkingGetInitialURL
  | NetworkStoreSetSupportAuthToken (token : string)
  | DeviceGetDeviceInfoWithID
  | AuthenticationReauthenticate (command : string)
  | PusherReconnect
  | ChannelAuthorizationCallback (callback : nat) (error : option string) (authData : obj).

(** The state of a promise. *)
Inductive Promise : Type :=
  | Pending
  | Fulfilled (v : bool)
  | Rejected (reason : string).

(** How a command sent to the backend ends. *)
Inductive Outcome : Type :=
  | Succeeds
  | Fails
  | NeverResolves.

(** A command handed to the command client with [API.write] and not yet
    settled.  A request made with [API.makeRequestWithSideEffects] is not
    kept here: the caller holds its promise, and the continuation of that
    promise is the function that [authenticatePusher] returns. *)
Record Request : Type := mkRequest {
  command : string;
  params : obj;
  data : OnyxData;
}.

(** The module-level variables ([sessionAuthTokenType], [sessionAuthToken],
    [authPromiseResolver], [credentials], [preferredLocale] and the closure
    of the throttled [reauthenticatePusher]), the store, the promises made
    by [waitForUserSignIn] (a promise is its index in [promises]; a resolver
    is the index of the promise it settles), what the module reads from its
    collaborators, and the calls made so far. *)
Record World : Type := mkWorld {
  sessionAuthTokenType : option string;
  sessionAuthToken : option string;
  authPromiseResolver : option nat;
  credentials : obj;
  preferredLocale : option string;
  reauthThrottle : Lodash.state;
  onyx : Onyx.store;
  promises : list Promise;
  inflight : list Request;
  activeRoute : string;
  networkAuthToken : option string;
  now : Z;
  trace : list Event;
}.

(** The world when the module has just been loaded. *)
Definition initialWorld : World :=
  {| sessionAuthTokenType := Some ""; sessionAuthToken := None;
     authPromiseResolver := None; credentials := ∅; preferredLocale := None;
     reauthThrottle := Lodash.init; onyx := fun _ => None; promises := [];
     inflight := []; activeRoute := ""; networkAuthToken := None; now := 0;
     trace := [] |}.

Definition with_session (ty tok : option string) (res : option nat) (w : World) : World :=
  {| sessionAuthTokenType := ty; sessionAuthToken := tok; authPromiseResolver := res;
     credentials := credentials w; preferredLocale := preferredLocale w;
     reauthThrottle := reauthThrottle w; onyx := onyx w; promises := promises w;
     inflight := inflight w; activeRoute := activeRoute w;
     networkAuthToken := networkAuthToken w; now := now w; trace := trace w |}.

Definition with_credentials (c : obj) (w : World) : World :=
  {| sessionAuthTokenType := sessionAuthTokenType w; sessionAuthToken := sessionAuthToken w;
     authPromiseResolver := authPromiseResolver w;
     credentials := c; preferredLocale := preferredLocale w;
     reauthThrottle := reauthThrottle w; onyx := onyx w; promises := promises w;
     inflight := inflight w; activeRoute := activeRoute w;
     networkAuthToken := networkAuthToken w; now := now w; trace := trace w |}.

Definition with_preferredLocale (l : option string) (w : World) : World :=
  {| sessionAuthTokenType := sessionAuthTokenType w; sessionAuthToken := sessionAuthToken w;
     authPromiseResolver := authPromiseResolver w;
     credentials := credentials w; preferredLocale := l;
     reauthThrottle := reauthThrottle w; onyx := onyx w; promises := promises w;
     inflight := inflight w; activeRoute := activeRoute w;
     networkAuthToken := networkAuthToken w; now := now w; trace := trace w |}.

Definition with_reauthThrottle (t : Lodash.state) (w : World) : World :=
  {| sessionAuthTokenType := sessionAuthTokenType w; sessionAuthToken := sessionAuthToken w;
     authPromiseResolver := authPromiseResolver w;
     credentials := credentials w; preferredLocale := preferredLocale w;
     reauthThrottle := t; onyx := onyx w; promises := promises w;
     inflight := inflight w; activeRoute := activeRoute w;
     networkAuthToken := networkAuthToken w; now := now w; trace := trace w |}.

Definition with_onyx (s : Onyx.store) (w : World) : World :=
  {| sessionAuthTokenType := sessionAuthTokenType w; sessionAuthToken := sessionAuthToken w;
     authPromiseResolver := authPromiseResolver w;
     credentials := credentials w; preferredLocale := preferredLocale w;
     reauthThrottle := reauthThrottle w; onyx := s; promises := promises w;
     inflight := inflight w; activeRoute := activeRoute w;
     networkAuthToken := networkAuthToken w; now := now w; trace := trace w |}.

Definition with_promises (ps : list Promise) (w : World) : World :=
  {| sessionAuthTokenType := sessionAuthTokenType w; sessionAuthToken := sessionAuthToken w;
     authPromiseResolver := authPromiseResolver w;
     credentials := credentials w; preferredLocale := preferredLocale w;
     reauthThrottle := reauthThrottle w; onyx := onyx w; promises := ps;
     inflight := inflight w; activeRoute := activeRoute w;
     networkAuthToken := networkAuthToken w; now := now w; trace := trace w |}.

Definition with_inflight (rs : list Request) (w : World) : World :=
  {| sessionAuthTokenType := sessionAuthTokenType w; sessionAuthToken := sessionAuthToken w;
     authPromiseResolver := authPromiseResolver w;
     credentials := credentials w; preferredLocale := preferredLocale w;
     reauthThrottle := reauthThrottle w; onyx := onyx w; promises := promises w;
     inflight := rs; activeRoute := activeRoute w;
     networkAuthToken := networkAuthToken w; now := now w; trace := trace w |}.

Definition with_now (t : Z) (w : World) : World :=
  {| sessionAuthTokenType := sessionAuthTokenType w; sessionAuthToken := sessionAuthToken w;
     authPromiseResolver := authPromiseResolver w;
     credentials := credentials w; preferredLocale := preferredLocale w;
     reauthThrottle := reauthThrottle w; onyx := onyx w; promises := promises w;
     inflight := inflight w; activeRoute := activeRoute w;
     networkAuthToken := networkAuthToken w; now := t; trace := trace w |}.

Definition with_trace (tr : list Event) (w : World) : World :=
  {| sessionAuthTokenType := sessionAuthTokenType w; sessionAuthToken := sessionAuthToken w;
     authPromiseResolver := authPromiseResolver w;
     credentials := credentials w; preferredLocale := preferredLocale w;
     reauthThrottle := reauthThrottle w; onyx := onyx w; promises := promises w;
     inflight := inflight w; activeRoute := activeRoute w;
     networkAuthToken := networkAuthToken w; now := now w; trace := tr |}.

(** ** A state monad over the world *)

Definition M (A : Type) : Type := World -> A * World.

Definition ret {A} (a : A) : M A := fun w => (a, w).

Definition bind {A B} (m : M A) (k : A -> M B) : M B :=
  fun w => let '(a, w1) := m w in k a w1.

Notation "'let!' x ':=' m 'in' k" := (bind m (fun x => k))
  (at level 10, x name, m at level 100, k at level 200).
Notation "'run!' m 'in' k" := (bind m (fun _ => k))
  (at level 10, m at level 100, k at level 200).

Definition get {A} (f : World -> A) : M A := fun w => (f w, w).

Definition modify (f : World -> World) : M unit := fun w => (tt, f w).

(** Final world of a computation. *)
Definition exec {A} (m : M A) (w : World) : World := snd (m w).

(** Result of a computation. *)
Definition eval {A} (m : M A) (w : World) : A := fst (m w).

(** Record a call into a collaborator. *)
Definition emit (e : Event) : M unit :=
  modify (fun w => with_trace (trace w ++ [e]) w).

(** The calls a computation makes, started in [w]. *)
Definition calls {A} (m : M A) (w : World) : list Event :=
  drop (length (trace w)) (trace (exec m w)).

(** ** JavaScript string helpers *)

(** [s.slice(n)] for a non-negative [n]. *)
Fixpoint slice (n : nat) (s : string) : string :=
  match n, s with
  | O, _ => s
  | S n', String _ s' => slice n' s'
  | S _, EmptyString => EmptyString
  end.

(** [s.startsWith(p)] *)
Definition startsWith (s p : string) : bool := String.prefix p s.

(** [s.replace(pat, rep)] for a string pattern and a replacement without
    [$]: only the first occurrence of [pat] is replaced. *)
Fixpoint replace (s pat rep : string) : string :=
  if String.prefix pat s then rep ++ slice (String.length pat) s
  else
    match s with
    | EmptyString => EmptyString
    | String c s' => String c (replace s' pat rep)
    end.

(** Template-literal rendering of a field that may be missing.  A number is
    an integer of magnitude below 10^21, which is printed in full. *)
Definition render (o : option value) : string :=
  match o with
  | None | Some VUndefined => "undefined"
  | Some VNull => "null"
  | Some (VBool true) => "true"
  | Some (VBool false) => "false"
  | Some (VNum n) => pretty n
  | Some (VStr s) => s
  | Some (VAuto NOT_STARTED) => "not-started"
  | Some (VAuto SIGNING_IN) => "signing-in"
  | Some (VAuto JUST_SIGNED_IN) => "just-signed-in"
  | Some (VAuto FAILED) => "failed"
  end.

(** A [string | null] as a field value. *)
Definition of_nullable (o : option string) : value :=
  match o with
  | Some s => VStr s
  | None => VNull
  end.

(** [o.k] for a field that may be missing. *)
Definition field (k : string) (o : obj) : value := default VUndefined (o !! k).

(** ** The session module *)

Module Session.

(** How the promise of a request settles: with a response (which may be
    missing) or with an error. *)
Inductive RequestResult : Type :=
  | Resolves (response : option obj)
  | Rejects (error : string).

(** The callback that the channel library hands to [authenticatePusher]:
    the number by which its invocations are recorded, and what it throws,
    if anything, when it is invoked with an error and authorization data. *)
Record Callback : Type := mkCallback {
  callbackId : nat;
  callbackThrows : option string -> obj -> option string;
}.

(** How a handler of a promise ends: it returns, or it throws and the
    promise that it makes is rejected. *)
Inductive Completion : Type :=
  | Returns
  | Throws (error : string).

Section Actions.

Variable C : Constants.

(** [ReportUtils.getReportIDFromLink] and the [reportID] field of
    [ReportUtils.parseReportRouteParams]: helpers of another module. *)
Variable getReportIDFromLink : option string -> string.
Variable parseReportRouteParams : string -> option string.

(** *** Store and command client *)

Definition Onyx_merge (k : Onyx.key) (patch : obj) : M unit :=
  run! emit (OnyxMerge k patch) in
  modify (fun w => with_onyx (Onyx.merge k patch (onyx w)) w).

Definition Onyx_merge_value (k : Onyx.key) (v : value) : M unit :=
  run! emit (OnyxMergeValue k v) in
  modify (fun w => with_onyx (Onyx.write k (Onyx.EVal v) (onyx w)) w).

Definition Onyx_set (k : Onyx.key) (o : obj) : M unit :=
  run! emit (OnyxSet k o) in
  modify (fun w => with_onyx (Onyx.set k o (onyx w)) w).

(** Modelled from the spec: the command client [API] is not under src/.
    [write (command, params, onyxData)] applies the optimistic patches and
    issues the command without waiting for it; the success or failure
    patches are applied only when the command settles. *)
Definition API_write (cmd : string) (ps : obj) (d : OnyxData) : M unit :=
  run! emit (ApiWrite cmd ps d) in
  modify (fun w =>
    with_inflight (inflight w ++ [{| command := cmd; params := ps; data := d |}])
      (with_onyx (Onyx.apply_all (optimisticData d) (onyx w)) w)).

(** Modelled from the spec: the oldest command in flight settles. *)
Definition API_settle (o : Outcome) : M unit :=
  fun w =>
    match inflight w, o with
    | r :: rest, Succeeds =>
        (tt, with_inflight rest (with_onyx (Onyx.apply_all (successData (data r)) (onyx w)) w))
    | r :: rest, Fails =>
        (tt, with_inflight rest (with_onyx (Onyx.apply_all (failureData (data r)) (onyx w)) w))
    | _, _ => (tt, w)
    end.

(** *** Subscriptions *)

(** Settling a promise: only a pending promise changes. *)
Definition settle (p : nat) (v : Promise) (ps : list Promise) : list Promise :=
  match ps !! p with
  | Some Pending => <[p := v]> ps
  | _ => ps
  end.

(** [resolve (v)] of promise [p]. *)
Definition resolve (p : nat) (v : bool) : M unit :=
  modify (fun w => with_promises (settle p (Fulfilled v) (promises w)) w).

(** The callback connected to [ONYXKEYS.SESSION]. *)
Definition sessionCallback (session : option obj) : M unit :=
  let ty := session ≫= str_field "authTokenType" in
  let tok := session ≫= str_field "authToken" in
  let! resolver := get authPromiseResolver in
  run! modify (with_session ty tok resolver) in
  match resolver with
  | Some p =>
      if truthy tok then
        run! resolve p true in
        modify (with_session ty tok None)
      else ret tt
  | None => ret tt
  end.

(** The callback connected to [ONYXKEYS.CREDENTIALS]. *)
Definition credentialsCallback (v : option obj) : M unit :=
  modify (with_credentials (default ∅ v)).

(** The callback connected to [ONYXKEYS.NVP_PREFERRED_LOCALE]. *)
Definition preferredLocaleCallback (v : option string) : M unit :=
  modify (with_preferredLocale v).

(** *** Signing out *)

Definition signOut : M unit :=
  run! emit (LogInfo "Flushing logs before signing out") in
  let! authToken := get networkAuthToken in
  let! creds := get credentials in
  let ps : obj :=
    {[ "authToken" := of_nullable authToken;
       "partnerUserID" := VStr (nullish (str_field "autoGeneratedLogin" creds) "");
       "partnerName" := VStr (PARTNER_NAME C);
       "partnerPassword" := VStr (PARTNER_PASSWORD C);
       "shouldRetry" := VBool false ]} in
  run! API_write "LogOut" ps noData in
  run! emit ClearCache in
  emit TimingClearData.

(** Continuation of [clearCache ()] in [signOut]. *)
Definition signOut_cacheCleared : M unit :=
  emit (LogInfo "Cleared all cache data").

Definition isAnonymousUser : M bool :=
  get (fun w => bool_decide (sessionAuthTokenType w = Some "anonymousAccount")).

Definition signOutAndRedirectToSignIn : M unit :=
  run! emit (LogInfo "Redirecting to Sign In because signOut() was called") in
  run! emit (HideContextMenu false) in
  let! anonymous := isAnonymousUser in
  if negb anonymous then
    run! signOut in
    emit RedirectToSignIn
  else
    let! active := get (fun w => String.eqb (activeRoute w) (SIGN_IN_MODAL C)) in
    if active then ret tt
    else
      run! emit (NavigationNavigate (SIGN_IN_MODAL C)) in
      emit LinkingGetInitialURL.

(** Continuation of [Linking.getInitialURL ()]. *)
Definition signOutAndRedirectToSignIn_initialURL (url : option string) : M unit :=
  let reportID := getReportIDFromLink url in
  if truthy (Some reportID)
  then Onyx_merge_value Onyx.LAST_OPENED_PUBLIC_ROOM_ID (VStr reportID)
  else ret tt.

(** The result is the callback itself or a function without arguments. *)
Definition checkIfActionIsAllowed {TCallback : Type}
    (callback : TCallback) (isAnonymousAction : bool) : M (TCallback + (unit -> M unit)) :=
  let! anonymous := isAnonymousUser in
  if anonymous && negb isAnonymousAction
  then ret (inr (fun _ : unit => signOutAndRedirectToSignIn))
  else ret (inl callback).

(** *** Signing in from a magic link *)

Definition merge_into (k : Onyx.key) (o : obj) : Onyx.update :=
  {| Onyx.onyxMethod := Onyx.MERGE; Onyx.ukey := k; Onyx.uvalue := o |}.

(** The three patch lists of [signInWithValidateCode]. *)
Definition signInWithValidateCode_data (accountID : Z) (validateCode : value)
    (twoFactorAuthCode : string) : OnyxData :=
  {| optimisticData :=
       [ merge_into Onyx.ACCOUNT
           (<["loadingForm" :=
                VStr (if truthy (Some twoFactorAuthCode)
                      then VALIDATE_TFA_CODE_FORM C else VALIDATE_CODE_FORM C)]>
              (<["isLoading" := VBool true]> (DEFAULT_ACCOUNT_DATA C)));
         merge_into Onyx.SESSION {[ "autoAuthState" := VAuto SIGNING_IN ]} ];
     successData :=
       [ merge_into Onyx.ACCOUNT
           {[ "isLoading" := VBool false; "loadingForm" := VNull ]};
         merge_into Onyx.CREDENTIALS
           {[ "accountID" := VNum accountID; "validateCode" := validateCode ]};
         merge_into Onyx.SESSION {[ "autoAuthState" := VAuto JUST_SIGNED_IN ]} ];
     failureData :=
       [ merge_into Onyx.ACCOUNT
           {[ "isLoading" := VBool false; "loadingForm" := VNull ]};
         merge_into Onyx.SESSION {[ "autoAuthState" := VAuto FAILED ]} ] |}.

(** The validate code is chosen when the function is called; the command is
    written by the continuation of [Device.getDeviceInfoWithID ()], which is
    the result. *)
Definition signInWithValidateCode (accountID : Z) (code : string)
    (twoFactorAuthCode : string) : M (string -> M unit) :=
  let! creds := get credentials in
  let validateCode :=
    if truthy (Some twoFactorAuthCode) then field "validateCode" creds else VStr code in
  let d := signInWithValidateCode_data accountID validateCode twoFactorAuthCode in
  run! emit DeviceGetDeviceInfoWithID in
  ret (fun deviceInfo : string =>
    let! locale := get preferredLocale in
    let ps : obj :=
      {[ "accountID" := VNum accountID;
         "validateCode" := validateCode;
         "twoFactorAuthCode" := VStr twoFactorAuthCode;
         "preferredLocale" := of_nullable locale;
         "deviceInfo" := VStr deviceInfo ]} in
    API_write "SigninUserWithLink" ps d).

Definition signedInStates : list AutoAuthState := [SIGNING_IN; JUST_SIGNED_IN].

Definition initAutoAuthState (cachedAutoAuthState : AutoAuthState) : M unit :=
  Onyx_merge Onyx.SESSION
    {[ "autoAuthState" :=
         VAuto (if includes signedInStates cachedAutoAuthState
                then JUST_SIGNED_IN else NOT_STARTED) ]}.

Definition setSupportAuthToken (supportAuthToken email : string) (accountID : Z) : M unit :=
  run! (if truthy (Some supportAuthToken)
        then Onyx_merge Onyx.SESSION
               {[ "authToken" := VStr "1";
                  "supportAuthToken" := VStr supportAuthToken;
                  "email" := VStr email;
                  "accountID" := VNum accountID ]}
        else Onyx_set Onyx.SESSION ∅) in
  emit (NetworkStoreSetSupportAuthToken supportAuthToken).

(** *** The real-time channel *)

(** The function wrapped by [throttle]. *)
Definition reauthenticatePusher_body : M unit :=
  run! emit (LogInfo "[Pusher] Re-authenticating and then reconnecting") in
  emit (AuthenticationReauthenticate "AuthenticatePusher").

(** Continuations of [Authentication.reauthenticate]. *)
Definition reauthenticatePusher_then : M unit := emit PusherReconnect.

Definition reauthenticatePusher_catch : M unit :=
  emit (ConsoleDebug "[PusherConnectionManager] Unable to re-authenticate Pusher because we are offline.").

Definition reauthenticateWait : Z := 5000.

Definition reauthenticateOptions : Lodash.options :=
  Lodash.throttle reauthenticateWait None (Some false).

(** What the environment does to the throttled function, at the current
    time: a call, or the expiry of its timer. *)
Definition throttled (a : Z -> Lodash.action) : M unit :=
  let! time := get now in
  let! s := get reauthThrottle in
  let '(fired, s1) := Lodash.step reauthenticateWait reauthenticateOptions (a time) s in
  run! modify (with_reauthThrottle s1) in
  if fired then reauthenticatePusher_body else ret tt.

Definition reauthenticatePusher : M unit := throttled Lodash.Call.

Definition reauthenticatePusher_timer : M unit := throttled Lodash.Timer.

(** The clock of the environment moves to [t]. *)
Definition at_time (t : Z) : M unit := modify (with_now t).

Definition error_expired : string :=
  "Pusher failed to authenticate because authToken is expired".

Definition error_code (response : option obj) : string :=
  "Pusher failed to authenticate because code: " ++ render (response ≫= (.!! "jsonCode"))
  ++ " message: " ++ render (response ≫= (.!! "message")).

Definition error_request : string := "AuthenticatePusher request failed".

Definition noAuth : obj := {[ "auth" := VStr "" ]}.

(** [callback (error, authData)]: the invocation is recorded, and the
    callback returns or throws. *)
Definition invoke (callback : Callback) (error : option string) (authData : obj)
    : M Completion :=
  run! emit (ChannelAuthorizationCallback (callbackId callback) error authData) in
  ret match callbackThrows callback error authData with
      | Some thrown => Throws thrown
      | None => Returns
      end.

(** The handler given to [.then] of the request.  The loggers and the
    throttled function are taken to return; when the callback throws, the
    rest of the handler is skipped and the handler throws. *)
Definition authenticatePusher_then (channelName : string) (callback : Callback)
    (response : option obj) : M Completion :=
  let jsonCode := response ≫= (.!! "jsonCode") in
  if bool_decide (jsonCode = Some (VNum (JSON_CODE_NOT_AUTHENTICATED C))) then
    run! emit (LogHmmm "[PusherAuthorizer] Unable to authenticate Pusher because authToken is expired") in
    let! invoked := invoke callback (Some error_expired) noAuth in
    match invoked with
    | Throws thrown => ret (Throws thrown)
    | Returns =>
        run! reauthenticatePusher in
        ret Returns
    end
  else if negb (bool_decide (jsonCode = Some (VNum (JSON_CODE_SUCCESS C)))) then
    run! emit (LogHmmm "[PusherAuthorizer] Unable to authenticate Pusher for reason other than expired session") in
    invoke callback (Some (error_code response)) noAuth
  else
    run! emit (LogInfo "[PusherAuthorizer] Pusher authenticated successfully") in
    invoke callback None (default ∅ response).

(** The handler given to [.catch]. *)
Definition authenticatePusher_catch (channelName : string) (callback : Callback)
    (error : string) : M Completion :=
  run! emit (LogHmmm "[PusherAuthorizer] Unhandled error: ") in
  invoke callback (Some error_request) noAuth.

(** The request is issued at once; the result is what runs when it
    settles.  [.catch] is chained after [.then]: its handler runs when the
    request is rejected and also when the first handler throws. *)
Definition authenticatePusher (socketID channelName : string) (callback : Callback)
    : M (RequestResult -> M Completion) :=
  run! emit (LogInfo "[PusherAuthorizer] Attempting to authorize Pusher") in
  let ps : obj :=
    {[ "socket_id" := VStr socketID;
       "channel_name" := VStr channelName;
       "shouldRetry" := VBool false;
       "forceNetworkRequest" := VBool true ]} in
  run! emit (ApiMakeRequestWithSideEffects "AuthenticatePusher" ps) in
  ret (fun r : RequestResult =>
    match r with
    | Resolves response =>
        let! handled := authenticatePusher_then channelName callback response in
        match handled with
        | Returns => ret Returns
        | Throws thrown => authenticatePusher_catch channelName callback thrown
        end
    | Rejects error => authenticatePusher_catch channelName callback error
    end).

(** *** Waiting for the sign-in *)

(** A new promise is made and its executor runs at once. *)
Definition waitForUserSignIn : M nat :=
  let! p := get (fun w => length (promises w)) in
  run! modify (fun w => with_promises (promises w ++ [Pending]) w) in
  let! token := get sessionAuthToken in
  run! (if truthy token then resolve p true
        else modify (fun w =>
               with_session (sessionAuthTokenType w) (sessionAuthToken w) (Some p) w)) in
  ret p.

(** *** Routes open to anonymous users *)

Definition routesCanAccessByAnonymousUser : list string :=
  [SIGN_IN_MODAL C; REPORT_WITH_ID_DETAILS C; REPORT_WITH_ID_DETAILS_SHARE_CODE C].

(** The local variable [routeRemovedReportId] when it is looked up in the
    list of routes. *)
Definition routeRemovedReportId (route : string) : string :=
  let parsedReportRouteParams := parseReportRouteParams route in
  let replaced :=
    if truthy parsedReportRouteParams
    then replace route (nullish parsedReportRouteParams "") ":reportID"
    else route in
  if startsWith route "/" then slice 1 replaced else replaced.

Definition canAccessRouteByAnonymousUser (route : string) : bool :=
  let reportID := getReportIDFromLink (Some route) in
  if truthy (Some reportID) then true
  else if includes routesCanAccessByAnonymousUser (routeRemovedReportId route) then true
  else false.

End Actions.

End Session.

(** ** The social-security-number step of the wallet form *)

Module SocialSecurityNumber.

Section Validate.

(** [INPUT_IDS.PERSONAL_INFO_STEP.SSN_LAST_4]: the name of the step's input,
    declared with the form's type. *)
Variable SSN_LAST_4 : string.

(** [ValidationUtils.isValidSSNLastFour] and the test of a required field's
    value used by [ValidationUtils.getFieldRequiredErrors], with the error
    the latter reports. *)
Variable isValidSSNLastFour : string -> bool.
Variable isRequiredFulfilled : option string -> bool.
Variable fieldRequired : string.

Definition STEP_FIELDS : list string := [SSN_LAST_4].

(** Modelled from the spec: [ValidationUtils.getFieldRequiredErrors] is not
    under src/; it returns a record of errors with a required-field error
    under every listed field whose value is empty, and nothing else. *)
Definition getFieldRequiredErrors (values : gmap string string)
    (requiredFields : list string) : gmap string string :=
  fold_left
    (fun errors fieldKey =>
       if isRequiredFulfilled (values !! fieldKey) then errors
       else <[fieldKey := fieldRequired]> errors)
    requiredFields ∅.

Definition validate (values : gmap string string) : gmap string string :=
  let errors := getFieldRequiredErrors values STEP_FIELDS in
  if truthy (values !! "ssn") && negb (isValidSSNLastFour (nullish (values !! "ssn") ""))
  then <["ssn" := "bankAccount.error.ssnLast4"]> errors
  else errors.

End Validate.

(** A value of a text input is empty when it is missing or the empty
    string. *)
Definition empty_field (v : option string) : bool := negb (truthy v).

(** Four decimal digits other than [0000]. *)
Definition is_digit (c : ascii) : bool :=
  let n := nat_of_ascii c in (48 <=? n)%nat && (n <=? 57)%nat.

Definition four_digits (s : string) : bool :=
  match s with
  | String a (String b (String c (String d EmptyString))) =>
      is_digit a && is_digit b && is_digit c && is_digit d
      && negb (String.eqb s "0000")
  | _ => false
  end.

End SocialSecurityNumber.

(** ** Concrete constants, for evaluating the definitions *)

Definition sampleConstants : Constants :=
  {| PARTNER_NAME := "partner-name";
     PARTNER_PASSWORD := "partner-password";
     JSON_CODE_SUCCESS := 200;
     JSON_CODE_NOT_AUTHENTICATED := 407;
     SIGN_IN_MODAL := "sign-in-modal";
     REPORT_WITH_ID_DETAILS := "r/:reportID/details";
     REPORT_WITH_ID_DETAILS_SHARE_CODE := "r/:reportID/details/shareCode";
     DEFAULT_ACCOUNT_DATA := {[ "errors" := VNull; "success" := VStr ""; "isLoading" := VBool false ]};
     VALIDATE_CODE_FORM := "ValidateCodeForm";
     VALIDATE_TFA_CODE_FORM := "ValidateTfaCodeForm" |}.

(** A route parser for evaluating [canAccessRouteByAnonymousUser]: the
    segment after [r/], with a leading [/] of the route dropped first. *)
Fixpoint until_slash (s : string) : string :=
  match s with
  | EmptyString => EmptyString
  | String c s' => if Ascii.eqb c "/" then EmptyString else String c (until_slash s')
  end.

Definition sampleParse (route : string) : option string :=
  let r := if startsWith route "/" then slice 1 route else route in
  if startsWith r "r/" then Some (until_slash (slice 2 r)) else Some "".

(** The report of a link: the parsed segment unless the route goes on to a
    sub-page. *)
Definition sampleReportID (url : option string) : string :=
  match url with
  | None => ""
  | Some route =>
      let r := if startsWith route "/" then slice 1 route else route in
      let id := nullish (sampleParse route) "" in
      if String.eqb r ("r/" ++ id) then id else ""
  end.

(** ** Runs of the sign-in waiter *)

(** What happens to the waiter: a caller waits, or the store reports a
    session to the subscription. *)
Inductive SignInStep : Type :=
  | CallWait
  | SessionChanged (session : option obj).

Definition signInStep (s : SignInStep) : M unit :=
  match s with
  | CallWait => run! Session.waitForUserSignIn in ret tt
  | SessionChanged session => Session.sessionCallback session
  end.

Fixpoint signInRun (steps : list SignInStep) : M unit :=
  match steps with
  | [] => ret tt
  | s :: rest => run! signInStep s in signInRun rest
  end.

(** The session carries a truthy auth token. *)
Definition has_token (session : option obj) : bool :=
  truthy (session ≫= str_field "authToken").

Definition is_rejected (p : Promise) : bool :=
  match p with
  | Rejected _ => true
  | _ => false
  end.

(** A promise that exists and whose resolver is not the registered one. *)
Definition abandoned (p : nat) (w : World) : Prop :=
  (p < length (promises w))%nat /\ authPromiseResolver w <> Some p.

(** ** Outcomes of a channel authorization *)

Definition is_callback (e : Event) : bool :=
  match e with
  | ChannelAuthorizationCallback _ _ _ => true
  | _ => false
  end.

(** The calls into the command client [API]. *)
Definition is_api_call (e : Event) : bool :=
  match e with
  | ApiWrite _ _ _ | ApiMakeRequestWithSideEffects _ _ => true
  | _ => false
  end.

Definition is_reauthenticate (e : Event) : bool :=
  match e with
  | AuthenticationReauthenticate _ => true
  | _ => false
  end.

(** The four ways in which an authorization request ends: the backend says
    that the session is not authenticated, it reports another status that is
    not the success status, it reports success, or the request itself
    fails. *)
Inductive PusherOutcome : Type :=
  | NotAuthenticated
  | OtherFailure
  | Success
  | RequestFailed.

Definition jsonCodeOf (response : option obj) : option value :=
  response ≫= (.!! "jsonCode").

Definition outcomeOf (C : Constants) (r : Session.RequestResult) : PusherOutcome :=
  match r with
  | Session.Rejects _ => RequestFailed
  | Session.Resolves response =>
      if decide (jsonCodeOf response = Some (VNum (JSON_CODE_SUCCESS C))) then Success
      else if decide (jsonCodeOf response = Some (VNum (JSON_CODE_NOT_AUTHENTICATED C)))
           then NotAuthenticated
           else OtherFailure
  end.

(** ** Runs of the throttled re-authentication *)

Definition action_time (a : Lodash.action) : Z :=
  match a with
  | Lodash.Call t => t
  | Lodash.Timer t => t
  end.

(** The clock reaches the time of the action, and then the module is called
    or the timer of the throttle expires. *)
Definition throttleStep (a : Lodash.action) : M unit :=
  run! Session.at_time (action_time a) in
  match a with
  | Lodash.Call _ => Session.reauthenticatePusher
  | Lodash.Timer _ => Session.reauthenticatePusher_timer
  end.

Fixpoint throttleRun (acts : list Lodash.action) : M unit :=
  match acts with
  | [] => ret tt
  | a :: rest => run! throttleStep a in throttleRun rest
  end.

(** Executions of the re-authentication body among the calls made. *)
Definition reauthentications (es : list Event) : nat :=
  length (filter is_reauthenticate es).

(** The actions happen in the order of the list, none before [lo] and all
    before [hi]. *)
Fixpoint within (lo hi : Z) (acts : list Lodash.action) : bool :=
  match acts with
  | [] => true
  | a :: rest =>
      (lo <=? action_time a) && (action_time a <? hi) && within (action_time a) hi rest
  end.

(** The state of the throttle after an execution at [t0], while calls keep
    coming: the timer set at [t0] is pending and the last call was made
    between [t0] and [lo]. *)
Definition in_window (t0 lo : Z) (s : Lodash.state) : Prop :=
  Lodash.lastInvokeTime s = t0
  /\ Lodash.timerId s = Some (t0 + Session.reauthenticateWait)
  /\ exists lc, Lodash.lastCallTime s = Some lc /\ t0 <= lc <= lo.

(** ** The logout command *)

(** The parameters that [signOut] sends with [LogOut] from the world [w]. *)
Definition logOutParams (C : Constants) (w : World) : obj :=
  {[ "authToken" := of_nullable (networkAuthToken w);
     "partnerUserID" := VStr (nullish (str_field "autoGeneratedLogin" (credentials w)) "");
     "partnerName" := VStr (PARTNER_NAME C);
     "partnerPassword" := VStr (PARTNER_PASSWORD C);
     "shouldRetry" := VBool false ]}.

(** ** Proper values *)

(** A value that is neither [undefined] nor [null]. *)
Definition proper (v : value) : Prop := v <> VUndefined /\ v <> VNull.

(** ** Sample worlds and inputs *)

(** A world in which the subscription has seen a session with a token. *)
Definition signedInWorld : World :=
  with_session (Some "") (Some "token") None initialWorld.

(** A world in which the session is that of an anonymous account. *)
Definition anonymousWorld : World :=
  with_session (Some "anonymousAccount") (Some "token") None initialWorld.

Definition sampleCanAccess : string -> bool :=
  Session.canAccessRouteByAnonymousUser sampleConstants sampleReportID sampleParse.

Definition sampleValidate : gmap string string -> gmap string string :=
  SocialSecurityNumber.validate "ssnLast4" SocialSecurityNumber.four_digits
    (fun v => negb (SocialSecurityNumber.empty_field v)) "common.error.fieldRequired".

(** Ten calls within five seconds. *)
Definition tenCalls : list Lodash.action :=
  map Lodash.Call [1000; 1001; 1500; 2000; 2500; 3000; 4000; 5000; 5999].

(** A callback that returns, and one that throws whatever it is given. *)
Definition quietCallback (id : nat) : Session.Callback :=
  {| Session.callbackId := id; Session.callbackThrows := fun _ _ => None |}.

Definition throwingCallback (id : nat) : Session.Callback :=
  {| Session.callbackId := id; Session.callbackThrows := fun _ _ => Some "thrown" |}.

(** Whether the callback throws on the given arguments. *)
Definition throws (callback : Session.Callback) (error : option string) (authData : obj)
    : bool :=
  match Session.callbackThrows callback error authData with
  | Some _ => true
  | None => false
  end.

(** A response of the backend for an expired session. *)
Definition expiredResponse : option obj :=
  Some {[ "jsonCode" := VNum 407; "message" := VStr "expired" ]}.

(** Channels are authorized at the given times and each request is answered
    at once with [expiredResponse]. *)
Fixpoint authorizeAt (times : list Z) : M unit :=
  match times with
  | [] => ret tt
  | t :: rest =>
      run! Session.at_time t in
      let! settled :=
        Session.authenticatePusher sampleConstants "1.1" "private-user" (quietCallback 7) in
      run! settled (Session.Resolves expiredResponse) in
      authorizeAt rest
  end.

(** ** The commands of the session module *)

(** The forms named in [CONST.FORMS] and the route [ROUTES.HOME] that the
    commands below use. *)
Record Forms : Type := mkForms {
  RESEND_VALIDATION_FORM : string;
  RESEND_VALIDATE_CODE_FORM : string;
  LOGIN_FORM : string;
  UNLINK_LOGIN_FORM : string;
  HOME : string;
}.

Definition accountOf (s : Onyx.store) : obj := Onyx.as_obj (s Onyx.ACCOUNT).

Definition credentialsOf (s : Onyx.store) : obj := Onyx.as_obj (s Onyx.CREDENTIALS).

(** Truthiness of an optional argument given as a string. *)
Definition provided (o : option string) : bool := truthy o.

Module Commands.

Section Commands.

Variable C : Constants.
Variable F : Forms.

(** [ErrorUtils.getMicroSecondOnyxError]: a helper of another module; the
    error object it builds is kept as an opaque value. *)
Variable getMicroSecondOnyxError : string -> value.

Definition account (o : obj) : Onyx.update := Session.merge_into Onyx.ACCOUNT o.

Definition resendValidationLink_data : OnyxData :=
  {| optimisticData :=
       [ account {[ "isLoading" := VBool true; "errors" := VNull; "message" := VNull;
                    "loadingForm" := VStr (RESEND_VALIDATION_FORM F) ]} ];
     successData :=
       [ account {[ "isLoading" := VBool false;
                    "message" := VStr "resendValidationForm.linkHasBeenResent";
                    "loadingForm" := VNull ]} ];
     failureData :=
       [ account {[ "isLoading" := VBool false; "message" := VNull;
                    "loadingForm" := VNull ]} ] |}.

(** The argument defaults to the login of the credentials. *)
Definition resendValidationLink (login : option string) : M unit :=
  let! creds := get credentials in
  let email := match login with Some l => VStr l | None => field "login" creds end in
  Session.API_write "RequestAccountValidationLink" {[ "email" := email ]}
    resendValidationLink_data.

Definition resendValidateCode_data : OnyxData :=
  {| optimisticData :=
       [ account {[ "errors" := VNull;
                    "loadingForm" := VStr (RESEND_VALIDATE_CODE_FORM F) ]} ];
     successData := [ account {[ "loadingForm" := VNull ]} ];
     failureData := [ account {[ "loadingForm" := VNull ]} ] |}.

Definition resendValidateCode (login : option string) : M unit :=
  let! creds := get credentials in
  let email := match login with Some l => VStr l | None => field "login" creds end in
  Session.API_write "RequestNewValidateCode" {[ "email" := email ]}
    resendValidateCode_data.

Definition signInAttemptState : OnyxData :=
  {| optimisticData :=
       [ account
           (<["loadingForm" := VStr (LOGIN_FORM F)]>
              (<["message" := VNull]>
                 (<["isLoading" := VBool true]> (DEFAULT_ACCOUNT_DATA C)))) ];
     successData :=
       [ account {[ "isLoading" := VBool false; "loadingForm" := VNull ]};
         Session.merge_into Onyx.CREDENTIALS {[ "validateCode" := VNull ]} ];
     failureData :=
       [ account {[ "isLoading" := VBool false; "loadingForm" := VNull;
                    "errors" := getMicroSecondOnyxError "loginForm.cannotGetAccountDetails" ]} ] |}.

Definition beginAppleSignIn (idToken : string) : M unit :=
  let! locale := get preferredLocale in
  Session.API_write "SignInWithApple"
    {[ "idToken" := VStr idToken; "preferredLocale" := of_nullable locale ]}
    signInAttemptState.

Definition beginGoogleSignIn (token : string) : M unit :=
  let! locale := get preferredLocale in
  Session.API_write "SignInWithGoogle"
    {[ "token" := VStr token; "preferredLocale" := of_nullable locale ]}
    signInAttemptState.

(** The patch lists and the [oldPartnerUserID] of
    [signInWithShortLivedAuthToken]. *)
Definition signInWithShortLivedAuthToken_data : OnyxData :=
  {| optimisticData := [ account (<["isLoading" := VBool true]> (DEFAULT_ACCOUNT_DATA C)) ];
     successData := [ account {[ "isLoading" := VBool false ]} ];
     failureData := [ account {[ "isLoading" := VBool false ]} ] |}.

Definition oldPartnerUserID (creds : obj) (email : string) : string :=
  if bool_decide (creds !! "login" = Some (VStr email))
     && truthy (str_field "autoGeneratedLogin" creds)
  then nullish (str_field "autoGeneratedLogin" creds) ""
  else "".

Definition signIn_data (validateCode : string) (twoFactorAuthCode : option string)
    : OnyxData :=
  {| optimisticData :=
       [ account
           (<["loadingForm" :=
                VStr (if provided twoFactorAuthCode
                      then VALIDATE_TFA_CODE_FORM C else VALIDATE_CODE_FORM C)]>
              (<["isLoading" := VBool true]> (DEFAULT_ACCOUNT_DATA C))) ];
     successData :=
       [ account {[ "isLoading" := VBool false; "loadingForm" := VNull ]};
         Session.merge_into Onyx.CREDENTIALS {[ "validateCode" := VStr validateCode ]} ];
     failureData :=
       [ account {[ "isLoading" := VBool false; "loadingForm" := VNull ]} ] |}.

(** The parameters of [SigninUser], built when the device information
    arrives: the credentials are read then. *)
Definition signIn_params (validateCode : string) (twoFactorAuthCode : option string)
    (creds : obj) (locale : option string) (deviceInfo : string) : obj :=
  let ps : obj :=
    {[ "twoFactorAuthCode" := match twoFactorAuthCode with
                              | Some c => VStr c
                              | None => VUndefined
                              end;
       "email" := field "login" creds;
       "preferredLocale" := of_nullable locale;
       "deviceInfo" := VStr deviceInfo ]} in
  if truthy (Some validateCode) || provided twoFactorAuthCode
  then <["validateCode" :=
           if truthy (Some validateCode) then VStr validateCode
           else field "validateCode" creds]> ps
  else ps.

Definition signIn (validateCode : string) (twoFactorAuthCode : option string)
    : M (string -> M unit) :=
  run! emit DeviceGetDeviceInfoWithID in
  ret (fun deviceInfo : string =>
    let! creds := get credentials in
    let! locale := get preferredLocale in
    Session.API_write "SigninUser"
      (signIn_params validateCode twoFactorAuthCode creds locale deviceInfo)
      (signIn_data validateCode twoFactorAuthCode)).

Definition signInWithValidateCodeAndNavigate (accountID : Z) (validateCode : string)
    (twoFactorAuthCode : string) : M (string -> M unit) :=
  let! continuation := Session.signInWithValidateCode C accountID validateCode twoFactorAuthCode in
  run! emit (NavigationNavigate (HOME F)) in
  ret continuation.

Definition invalidateCredentials : M unit :=
  Session.Onyx_merge Onyx.CREDENTIALS
    {[ "autoGeneratedLogin" := VStr ""; "autoGeneratedPassword" := VStr "" ]}.

Definition clearAccountMessages : M unit :=
  Session.Onyx_merge Onyx.ACCOUNT
    {[ "success" := VStr ""; "errors" := VNull; "message" := VNull;
       "isLoading" := VBool false ]}.

Definition requestUnlinkValidationLink_data : OnyxData :=
  {| optimisticData :=
       [ account {[ "isLoading" := VBool true; "errors" := VNull; "message" := VNull;
                    "loadingForm" := VStr (UNLINK_LOGIN_FORM F) ]} ];
     successData :=
       [ account {[ "isLoading" := VBool false;
                    "message" := VStr "unlinkLoginForm.linkSent";
                    "loadingForm" := VNull ]} ];
     failureData :=
       [ account {[ "isLoading" := VBool false; "loadingForm" := VNull ]} ] |}.

Definition requestUnlinkValidationLink : M unit :=
  let! creds := get credentials in
  Session.API_write "RequestUnlinkValidationLink" {[ "email" := field "login" creds ]}
    requestUnlinkValidationLink_data.

Definition unlinkLogin_data : OnyxData :=
  {| optimisticData := [ account (<["isLoading" := VBool true]> (DEFAULT_ACCOUNT_DATA C)) ];
     successData :=
       [ account {[ "isLoading" := VBool false;
                    "message" := VStr "unlinkLoginForm.succesfullyUnlinkedLogin" ]};
         Session.merge_into Onyx.CREDENTIALS {[ "login" := VStr "" ]} ];
     failureData := [ account {[ "isLoading" := VBool false ]} ] |}.

Definition unlinkLogin (accountID : Z) (validateCode : string) : M unit :=
  Session.API_write "UnlinkLogin"
    {[ "accountID" := VNum accountID; "validateCode" := VStr validateCode ]}
    unlinkLogin_data.

(** [toggleTwoFactorAuth] and [validateTwoFactorAuth] use the same three
    patch lists. *)
Definition twoFactorAuth_data : OnyxData :=
  {| optimisticData := [ account {[ "isLoading" := VBool true ]} ];
     successData := [ account {[ "isLoading" := VBool false ]} ];
     failureData := [ account {[ "isLoading" := VBool false ]} ] |}.

Definition toggleTwoFactorAuth (enable : bool) : M unit :=
  Session.API_write (if enable then "EnableTwoFactorAuth" else "DisableTwoFactorAuth")
    ∅ twoFactorAuth_data.

Definition validateTwoFactorAuth (twoFactorAuthCode : string) : M unit :=
  Session.API_write "TwoFactorAuth_Validate"
    {[ "twoFactorAuthCode" := VStr twoFactorAuthCode ]} twoFactorAuth_data.

(** The commands that patch the account, with what their patch lists
    depend on. *)
Inductive Command : Type :=
  | ResendValidationLink
  | ResendValidateCode
  | SignInAttempt
  | SignInWithShortLivedAuthToken
  | SignIn (validateCode : string) (twoFactorAuthCode : option string)
  | SignInWithValidateCode (accountID : Z) (validateCode : value) (twoFactorAuthCode : string)
  | RequestUnlinkValidationLink
  | UnlinkLogin
  | TwoFactorAuth.

Definition patches (c : Command) : OnyxData :=
  match c with
  | ResendValidationLink => resendValidationLink_data
  | ResendValidateCode => resendValidateCode_data
  | SignInAttempt => signInAttemptState
  | SignInWithShortLivedAuthToken => signInWithShortLivedAuthToken_data
  | SignIn validateCode twoFactorAuthCode => signIn_data validateCode twoFactorAuthCode
  | SignInWithValidateCode accountID validateCode twoFactorAuthCode =>
      Session.signInWithValidateCode_data C accountID validateCode twoFactorAuthCode
  | RequestUnlinkValidationLink => requestUnlinkValidationLink_data
  | UnlinkLogin => unlinkLogin_data
  | TwoFactorAuth => twoFactorAuth_data
  end.

(** The commands whose optimistic patch names [isLoading], and those whose
    optimistic patch names [loadingForm]. *)
Definition names_isLoading (c : Command) : bool :=
  match c with
  | ResendValidateCode => false
  | _ => true
  end.

Definition names_loadingForm (c : Command) : bool :=
  match c with
  | ResendValidationLink | ResendValidateCode | SignInAttempt
  | SignIn _ _ | SignInWithValidateCode _ _ _ | RequestUnlinkValidationLink => true
  | SignInWithShortLivedAuthToken | UnlinkLogin | TwoFactorAuth => false
  end.

End Commands.

End Commands.

(** Modelled from the spec: the store is external; a subscription made with
    [connect ({key, callback})] is called with the value stored under the
    key.  The two deliveries below hand the stored credentials and the stored
    session to the callbacks of the session module. *)
Definition stored_obj (e : option Onyx.entry) : option obj :=
  match e with
  | Some (Onyx.EObj o) => Some o
  | _ => None
  end.

Definition deliverCredentials : M unit :=
  let! s := get onyx in
  Session.credentialsCallback (stored_obj (s Onyx.CREDENTIALS)).

Definition deliverSession : M unit :=
  let! s := get onyx in
  Session.sessionCallback (stored_obj (s Onyx.SESSION)).

(** ** Predicates on calls *)

(** The calls by which [signOut] is recognised. *)
Definition is_sign_out_call (e : Event) : bool :=
  match e with
  | ApiWrite _ _ _ | ClearCache | TimingClearData | RedirectToSignIn => true
  | _ => false
  end.

(** The waiter is consistent: the registered resolver, if any, belongs to a
    pending promise, and every promise is pending or fulfilled with [true]. *)
Definition waiter_consistent (w : World) : Prop :=
  (forall p, authPromiseResolver w = Some p -> promises w !! p = Some Pending)
  /\ Forall (fun x => x = Pending \/ x = Fulfilled true) (promises w).

(** The times at which the wrapped function is executed along a run. *)
Fixpoint execution_times (wait : Z) (opts : Lodash.options) (acts : list Lodash.action)
    (s : Lodash.state) : list Z :=
  match acts with
  | [] => []
  | a :: rest =>
      let '(fired, s1) := Lodash.step wait opts a s in
      let later := execution_times wait opts rest s1 in
      if fired then action_time a :: later else later
  end.

(** The actions happen in the order of the list, none before [lo]. *)
Fixpoint ordered (lo : Z) (acts : list Lodash.action) : bool :=
  match acts with
  | [] => true
  | a :: rest => (lo <=? action_time a) && ordered (action_time a) rest
  end.

(** Consecutive times are at least [gap] apart, the first at least [gap]
    after [from]. *)
Fixpoint spaced (gap from : Z) (times : list Z) : Prop :=
  match times with
  | [] => True
  | t :: rest => from + gap <= t /\ spaced gap t rest
  end.

(** The characters of a string. *)
Fixpoint chars (s : string) : list ascii :=
  match s with
  | EmptyString => []
  | String c s' => c :: chars s'
  end.

Definition sampleForms : Forms :=
  {| RESEND_VALIDATION_FORM := "ResendValidationForm";
     RESEND_VALIDATE_CODE_FORM := "ResendValidateCodeForm";
     LOGIN_FORM := "LoginForm";
     UNLINK_LOGIN_FORM := "UnlinkLoginForm";
     HOME := "" |}.

(** The state of the throttle after a call: the wrapped function was last
    executed at [li] and the last call was made between [li] and [lo]. *)
Definition called (li lo : Z) (s : Lodash.state) : Prop :=
  Lodash.lastInvokeTime s = li
  /\ exists lc, Lodash.lastCallTime s = Some lc /\ li <= lc <= lo.

(** ** Routes open to anonymous users: the replaced occurrence *)

(** [pat] occurs in [s] between [pre] and [post], and nowhere earlier. *)
Definition first_occurrence (pre pat post s : string) : Prop :=
  s = pre ++ pat ++ post
  /\ forall pre' post',
       s = pre' ++ pat ++ post' -> (String.length pre <= String.length pre')%nat.

(** [r] is [s] with the first occurrence of [pat] replaced by [rep], and [s]
    itself when [pat] does not occur in it. *)
Definition first_replaced (s pat rep r : string) : Prop :=
  (exists pre post, first_occurrence pre pat post s /\ r = pre ++ rep ++ post)
  \/ ((forall pre post, s <> pre ++ pat ++ post) /\ r = s).

(** [n] is what the route is compared with: the first occurrence of the
    parsed identifier, when one is parsed and is not empty, is replaced by
    [:reportID]; then, when the route begins with [/], the first character of
    the result is removed. *)
Definition looked_up (parseReportRouteParams : string -> option string)
    (route n : string) : Prop :=
  exists r,
    ((exists id,
        parseReportRouteParams route = Some id /\ id <> ""
        /\ first_replaced route id ":reportID" r)
     \/ ((parseReportRouteParams route = None \/ parseReportRouteParams route = Some "")
         /\ r = route))
    /\ (((exists rest, route = String "/" rest) /\ exists c, r = String c n)
        \/ ((forall rest, route <> String "/" rest) /\ n = r)).

(** ** Routes open to anonymous users, in the words of the specification *)

(** The route without the [/] at its start. *)
Definition spec_stripped (route : string) : string :=
  match route with
  | String "/" rest => rest
  | _ => route
  end.

(** The route with the report identifier embedded in it replaced by
    [:reportID] and the [/] at its start stripped: the identifier is replaced
    where it stands in the route. *)
Definition spec_normalized (parseReportRouteParams : string -> option string)
    (route n : string) : Prop :=
  (exists id pre post,
     parseReportRouteParams route = Some id /\ id <> ""
     /\ spec_stripped route = pre ++ id ++ post
     /\ n = pre ++ ":reportID" ++ post)
  \/ ((parseReportRouteParams route = None \/ parseReportRouteParams route = Some "")
      /\ n = spec_stripped route).

(** The routes that the specification opens to anonymous users. *)
Definition spec_canAccessRouteByAnonymousUser (C : Constants)
    (getReportIDFromLink : option string -> string)
    (parseReportRouteParams : string -> option string) (route : string) : Prop :=
  getReportIDFromLink (Some route) <> ""
  \/ exists n,
       spec_normalized parseReportRouteParams route n
       /\ n ∈ [SIGN_IN_MODAL C; REPORT_WITH_ID_DETAILS C;
               REPORT_WITH_ID_DETAILS_SHARE_CODE C].

(** * Properties *)

Local Open Scope list_scope.

(** ** The store *)

Lemma lookup_merge_obj (old patch : obj) (k : string) :
  Onyx.merge_obj old patch !! k = Onyx.merge_field (old !! k) (patch !! k).
Proof.
  unfold Onyx.merge_obj. rewrite lookup_merge.
  destruct (old !! k), (patch !! k); reflexivity.
Qed.

(** A field the patch does not name keeps its value. *)
Lemma merge_obj_frame (old patch : obj) (k : string) :
  patch !! k = None -> Onyx.merge_obj old patch !! k = old !! k.
Proof. intros H. rewrite lookup_merge_obj, H. reflexivity. Qed.

(** A field the patch sets to a proper value has that value. *)
Lemma merge_obj_set (old patch : obj) (k : string) (v : value) :
  patch !! k = Some v -> proper v -> Onyx.merge_obj old patch !! k = Some v.
Proof.
  intros H [Hu Hn]. rewrite lookup_merge_obj, H.
  destruct v; simpl; congruence.
Qed.

Lemma merge_obj_singleton (old : obj) (k : string) (v : value) :
  proper v -> Onyx.merge_obj old {[ k := v ]} = <[k := v]> old.
Proof.
  intros Hv. apply map_eq. intros j.
  destruct (decide (k = j)) as [->|Hne].
  - rewrite lookup_insert_eq. apply merge_obj_set; [apply lookup_singleton_eq | exact Hv].
  - rewrite lookup_insert_ne by exact Hne.
    apply merge_obj_frame. apply lookup_singleton_ne. exact Hne.
Qed.

Lemma session_merge (k : string) (v : value) (s : Onyx.store) :
  proper v ->
  Onyx.session (Onyx.merge Onyx.SESSION {[ k := v ]} s) = <[k := v]> (Onyx.session s).
Proof.
  intros Hv. unfold Onyx.session, Onyx.merge, Onyx.write. simpl.
  apply merge_obj_singleton. exact Hv.
Qed.

(** ** Traces *)

Lemma calls_app {A} (m : M A) (w : World) (es : list Event) :
  trace (exec m w) = (trace w ++ es)%list -> calls m w = es.
Proof. intros H. unfold calls. rewrite H. apply drop_app_length. Qed.

Ltac trace_calls :=
  apply calls_app; cbn; rewrite <- ?app_assoc; reflexivity.

(** ** initAutoAuthState *)

(** C1. For every cached auto-auth state, [initAutoAuthState] makes exactly
    one call into the store, a merge into the session of the single field
    [autoAuthState]: [JUST_SIGNED_IN] when the cached state is [SIGNING_IN]
    or [JUST_SIGNED_IN], [NOT_STARTED] for every other state ([FAILED] and
    [NOT_STARTED] included); the stored session afterwards is the old one
    with that field set. *)
Theorem initAutoAuthState_merges_one_state (cached : AutoAuthState) (w : World) :
  let next :=
    match cached with
    | SIGNING_IN | JUST_SIGNED_IN => JUST_SIGNED_IN
    | FAILED | NOT_STARTED => NOT_STARTED
    end in
  calls (Session.initAutoAuthState cached) w
    = [OnyxMerge Onyx.SESSION {[ "autoAuthState" := VAuto next ]}]
  /\ Onyx.session (onyx (exec (Session.initAutoAuthState cached) w))
    = <["autoAuthState" := VAuto next]> (Onyx.session (onyx w)).
Proof.
  intros next.
  assert (Hnext : (if includes Session.signedInStates cached
                   then JUST_SIGNED_IN else NOT_STARTED) = next).
  { subst next. destruct cached; reflexivity. }
  unfold Session.initAutoAuthState. rewrite Hnext. split.
  - trace_calls.
  - cbn. apply session_merge. split; discriminate.
Qed.

(** ** checkIfActionIsAllowed *)

Section CheckIfActionIsAllowed.

Variable C : Constants.
Context {TCallback : Type}.

(** C2. [checkIfActionIsAllowed fn isAnonymousAction] changes nothing and
    calls nothing.  When the user is not anonymous or the action is marked as
    allowed for anonymous users, its result is [fn] itself, at the
    callback's own type; otherwise its result is a function without
    arguments that is [signOutAndRedirectToSignIn]: it is the same function
    for every [fn], so [fn] is not called by it. *)
Theorem checkIfActionIsAllowed_guards_anonymous
    (fn : TCallback) (isAnonymousAction : bool) (w : World) :
  exec (Session.checkIfActionIsAllowed C fn isAnonymousAction) w = w
  /\ if negb (eval Session.isAnonymousUser w) || isAnonymousAction
     then eval (Session.checkIfActionIsAllowed C fn isAnonymousAction) w = inl fn
     else eval (Session.checkIfActionIsAllowed C fn isAnonymousAction) w
          = inr (fun _ => Session.signOutAndRedirectToSignIn C).
Proof.
  unfold Session.checkIfActionIsAllowed, exec, eval, bind, Session.isAnonymousUser, get.
  cbn. destruct (bool_decide _), isAnonymousAction; cbn; split; reflexivity.
Qed.

End CheckIfActionIsAllowed.

(** ** waitForUserSignIn *)

Lemma settle_last (ps : list Promise) (v : Promise) :
  Session.settle (length ps) v (ps ++ [Pending]) = ps ++ [v].
Proof.
  unfold Session.settle.
  rewrite lookup_app_r by lia. rewrite Nat.sub_diag. cbn.
  rewrite insert_app_r_alt by lia. rewrite Nat.sub_diag. reflexivity.
Qed.

Lemma waitForUserSignIn_eval (w : World) :
  eval Session.waitForUserSignIn w = length (promises w).
Proof.
  unfold Session.waitForUserSignIn, eval, bind, get, modify, ret, Session.resolve. cbn.
  destruct (truthy (sessionAuthToken w)); reflexivity.
Qed.

Lemma waitForUserSignIn_promises (w : World) :
  promises (exec Session.waitForUserSignIn w)
  = promises w ++ [if truthy (sessionAuthToken w) then Fulfilled true else Pending].
Proof.
  unfold Session.waitForUserSignIn, exec, bind, get, modify, ret, Session.resolve. cbn.
  destruct (truthy (sessionAuthToken w)); cbn; [apply settle_last | reflexivity].
Qed.

Lemma waitForUserSignIn_resolver (w : World) :
  authPromiseResolver (exec Session.waitForUserSignIn w)
  = if truthy (sessionAuthToken w) then authPromiseResolver w
    else Some (length (promises w)).
Proof.
  unfold Session.waitForUserSignIn, exec, bind, get, modify, ret, Session.resolve. cbn.
  destruct (truthy (sessionAuthToken w)); reflexivity.
Qed.

Lemma waitForUserSignIn_token (w : World) :
  sessionAuthToken (exec Session.waitForUserSignIn w) = sessionAuthToken w.
Proof.
  unfold Session.waitForUserSignIn, exec, bind, get, modify, ret, Session.resolve. cbn.
  destruct (truthy (sessionAuthToken w)); reflexivity.
Qed.

Lemma sessionCallback_promises (session : option obj) (w : World) :
  promises (exec (Session.sessionCallback session) w)
  = match authPromiseResolver w with
    | Some p => if has_token session
                then Session.settle p (Fulfilled true) (promises w) else promises w
    | None => promises w
    end.
Proof.
  unfold Session.sessionCallback, has_token, exec, bind, get, modify, ret, Session.resolve.
  cbn. destruct (authPromiseResolver w); [|reflexivity].
  destruct (truthy _); reflexivity.
Qed.

Lemma sessionCallback_resolver (session : option obj) (w : World) :
  authPromiseResolver (exec (Session.sessionCallback session) w)
  = if has_token session then None else authPromiseResolver w.
Proof.
  unfold Session.sessionCallback, has_token, exec, bind, get, modify, ret, Session.resolve.
  cbn. destruct (authPromiseResolver w); destruct (truthy _); reflexivity.
Qed.

Lemma sessionCallback_token (session : option obj) (w : World) :
  sessionAuthToken (exec (Session.sessionCallback session) w)
  = session ≫= str_field "authToken".
Proof.
  unfold Session.sessionCallback, has_token, exec, bind, get, modify, ret, Session.resolve.
  cbn. destruct (authPromiseResolver w); [|reflexivity].
  destruct (truthy _); reflexivity.
Qed.

Lemma exec_then {A B} (m : M A) (k : M B) (w : World) :
  exec (run! m in k) w = exec k (exec m w).
Proof. unfold exec, bind. destruct (m w). reflexivity. Qed.

Lemma signInRun_cons (s : SignInStep) (rest : list SignInStep) (w : World) :
  exec (signInRun (s :: rest)) w = exec (signInRun rest) (exec (signInStep s) w).
Proof. cbn [signInRun]. apply exec_then. Qed.

Lemma signInStep_wait (w : World) :
  exec (signInStep CallWait) w = exec Session.waitForUserSignIn w.
Proof. cbn [signInStep]. rewrite exec_then. reflexivity. Qed.

(** Sessions without a token leave the waiter as it is. *)
Lemma quiet_sessions (quiet : list (option obj)) :
  forallb (fun s => negb (has_token s)) quiet = true ->
  forall w,
    promises (exec (signInRun (map SessionChanged quiet)) w) = promises w
    /\ authPromiseResolver (exec (signInRun (map SessionChanged quiet)) w)
       = authPromiseResolver w.
Proof.
  induction quiet as [|s quiet IH]; intros Hq w.
  - split; reflexivity.
  - cbn in Hq. apply andb_prop in Hq as [Hs Hq].
    apply negb_true_iff in Hs.
    cbn [map]. rewrite signInRun_cons. cbn [signInStep].
    destruct (IH Hq (exec (Session.sessionCallback s) w)) as [-> ->].
    rewrite sessionCallback_promises, sessionCallback_resolver, Hs.
    destruct (authPromiseResolver w); split; reflexivity.
Qed.

Lemma settle_lookup (p q : nat) (ps : list Promise) :
  Session.settle q (Fulfilled true) ps !! p = ps !! p
  \/ Session.settle q (Fulfilled true) ps !! p = Some (Fulfilled true).
Proof.
  unfold Session.settle.
  destruct (ps !! q) as [[| |]|] eqn:Hq; try (left; reflexivity).
  destruct (decide (q = p)) as [->|Hne].
  - right. apply list_lookup_insert_eq. eapply lookup_lt_Some. exact Hq.
  - left. apply list_lookup_insert_ne. exact Hne.
Qed.

Lemma signInStep_never_rejects (q : nat) (s : SignInStep) (w : World) :
  (forall r, promises w !! q <> Some (Rejected r)) ->
  forall r, promises (exec (signInStep s) w) !! q <> Some (Rejected r).
Proof.
  intros H r. destruct s as [|session].
  - rewrite signInStep_wait, waitForUserSignIn_promises.
    destruct (decide (q < length (promises w))%nat) as [Hlt|Hge].
    + rewrite lookup_app_l by exact Hlt. apply H.
    + rewrite lookup_app_r by lia.
      destruct (q - length (promises w))%nat as [|n]; cbn.
      * destruct (truthy _); discriminate.
      * discriminate.
  - cbn [signInStep]. rewrite sessionCallback_promises.
    destruct (authPromiseResolver w) as [p|]; [|apply H].
    destruct (has_token session); [|apply H].
    destruct (settle_lookup q p (promises w)) as [-> | ->]; [apply H | discriminate].
Qed.

Lemma signInRun_never_rejects (q : nat) (steps : list SignInStep) :
  forall w,
    (forall r, promises w !! q <> Some (Rejected r)) ->
    forall r, promises (exec (signInRun steps) w) !! q <> Some (Rejected r).
Proof.
  induction steps as [|s steps IH]; intros w H.
  - exact H.
  - rewrite signInRun_cons. apply IH. apply signInStep_never_rejects. exact H.
Qed.

Lemma settle_other (p q : nat) (v : Promise) (ps : list Promise) :
  p <> q -> Session.settle q v ps !! p = ps !! p.
Proof.
  intros Hne. unfold Session.settle.
  destruct (ps !! q) as [[| |]|]; try reflexivity.
  apply list_lookup_insert_ne. congruence.
Qed.

Lemma settle_length (q : nat) (v : Promise) (ps : list Promise) :
  length (Session.settle q v ps) = length ps.
Proof.
  unfold Session.settle.
  destruct (ps !! q) as [[| |]|]; try reflexivity. apply length_insert.
Qed.

Lemma signInStep_abandoned (p : nat) (s : SignInStep) (w : World) :
  abandoned p w ->
  abandoned p (exec (signInStep s) w)
  /\ promises (exec (signInStep s) w) !! p = promises w !! p.
Proof.
  intros [Hlt Hres]. destruct s as [|session].
  - rewrite signInStep_wait. unfold abandoned.
    rewrite waitForUserSignIn_promises, waitForUserSignIn_resolver, length_app.
    cbn [length]. split; [split|].
    + lia.
    + destruct (truthy _); [exact Hres|]. intros [= Heq]. lia.
    + apply lookup_app_l. exact Hlt.
  - cbn [signInStep]. unfold abandoned.
    rewrite sessionCallback_promises, sessionCallback_resolver.
    destruct (authPromiseResolver w) as [q|] eqn:Hq, (has_token session).
    + rewrite settle_length. split; [split; [exact Hlt | discriminate]|].
      apply settle_other. congruence.
    + split; [split; [exact Hlt | exact Hres] | reflexivity].
    + split; [split; [exact Hlt | discriminate] | reflexivity].
    + split; [split; [exact Hlt | discriminate] | reflexivity].
Qed.

Lemma signInRun_abandoned (p : nat) (steps : list SignInStep) :
  forall w, abandoned p w ->
    promises (exec (signInRun steps) w) !! p = promises w !! p.
Proof.
  induction steps as [|s steps IH]; intros w H.
  - reflexivity.
  - rewrite signInRun_cons.
    destruct (signInStep_abandoned p s w H) as [H1 H2].
    rewrite (IH _ H1). exact H2.
Qed.

Lemma settle_pending (p : nat) (v : Promise) (ps : list Promise) :
  ps !! p = Some Pending -> Session.settle p v ps !! p = Some v.
Proof.
  intros H. unfold Session.settle. rewrite H.
  apply list_lookup_insert_eq. eapply lookup_lt_Some. exact H.
Qed.

(** C3. [waitForUserSignIn] makes a promise that no run of further calls and
    session changes rejects.  With a truthy session token at the call the
    promise is fulfilled with [true] at once and no resolver is registered.
    Without one the promise is pending and its resolver is the one
    registered; sessions without a token leave it pending, and the first
    session with a truthy token fulfils it with [true] and clears the
    registration.  A second call made while that resolver is pending
    registers the resolver of its own promise instead: the next session with
    a token fulfils the second promise, and the first promise stays pending
    whatever happens afterwards. *)
Theorem waitForUserSignIn_single_waiter (w : World) :
  let p := eval Session.waitForUserSignIn w in
  let w1 := exec Session.waitForUserSignIn w in
  (forall steps r, promises (exec (signInRun steps) w1) !! p <> Some (Rejected r))
  /\ (truthy (sessionAuthToken w) = true ->
      promises w1 !! p = Some (Fulfilled true)
      /\ authPromiseResolver w1 = authPromiseResolver w)
  /\ (truthy (sessionAuthToken w) = false ->
      promises w1 !! p = Some Pending
      /\ authPromiseResolver w1 = Some p
      /\ (forall quiet session,
            forallb (fun s => negb (has_token s)) quiet = true ->
            has_token session = true ->
            let w2 := exec (signInRun (map SessionChanged quiet)) w1 in
            let w3 := exec (Session.sessionCallback session) w2 in
            promises w2 !! p = Some Pending
            /\ promises w3 !! p = Some (Fulfilled true)
            /\ authPromiseResolver w3 = None)
      /\ (let q := eval Session.waitForUserSignIn w1 in
          let w2 := exec Session.waitForUserSignIn w1 in
          q <> p
          /\ authPromiseResolver w2 = Some q
          /\ promises w2 !! q = Some Pending
          /\ forall session steps,
               has_token session = true ->
               promises (exec (Session.sessionCallback session) w2) !! q
                 = Some (Fulfilled true)
               /\ promises (exec (signInRun steps) w2) !! p = Some Pending)).
Proof.
  intros p w1.
  assert (Hp : p = length (promises w)) by apply waitForUserSignIn_eval.
  assert (Hps : promises w1
                = promises w ++ [if truthy (sessionAuthToken w) then Fulfilled true else Pending])
    by apply waitForUserSignIn_promises.
  assert (Hres : authPromiseResolver w1
                 = if truthy (sessionAuthToken w) then authPromiseResolver w
                   else Some (length (promises w)))
    by apply waitForUserSignIn_resolver.
  assert (Hat : promises w1 !! p
                = Some (if truthy (sessionAuthToken w) then Fulfilled true else Pending)).
  { rewrite Hps, Hp, lookup_app_r by lia. rewrite Nat.sub_diag. reflexivity. }
  split; [|split].
  - intros steps. apply signInRun_never_rejects. intros r. rewrite Hat.
    destruct (truthy _); discriminate.
  - intros Htok. rewrite Htok in *. split; assumption.
  - intros Htok. rewrite Htok in *. rewrite <- Hp in Hres.
    split; [exact Hat|]. split; [exact Hres|]. split.
    + intros quiet session Hquiet Hsession w2 w3.
      destruct (quiet_sessions quiet Hquiet w1) as [Hq2 Hr2].
      fold w2 in Hq2, Hr2.
      assert (Hw2 : promises w2 !! p = Some Pending) by (rewrite Hq2; exact Hat).
      split; [exact Hw2|]. subst w3.
      rewrite sessionCallback_promises, sessionCallback_resolver, Hr2, Hres, Hsession.
      split; [|reflexivity]. apply settle_pending. exact Hw2.
    + intros q w2.
      assert (Htok1 : truthy (sessionAuthToken w1) = false).
      { subst w1. rewrite waitForUserSignIn_token. exact Htok. }
      assert (Hq : q = length (promises w1)) by apply waitForUserSignIn_eval.
      assert (Hps2 : promises w2 = promises w1 ++ [Pending]).
      { subst w2. rewrite waitForUserSignIn_promises, Htok1. reflexivity. }
      assert (Hres2 : authPromiseResolver w2 = Some q).
      { subst w2. rewrite waitForUserSignIn_resolver, Htok1, Hq. reflexivity. }
      assert (Hlen : length (promises w1) = S p).
      { rewrite Hps, length_app, Hp. cbn. lia. }
      assert (Hq2 : promises w2 !! q = Some Pending).
      { rewrite Hps2, Hq, lookup_app_r by lia. rewrite Nat.sub_diag. reflexivity. }
      split; [lia|]. split; [exact Hres2|]. split; [exact Hq2|].
      intros session steps Hsession. split.
      * rewrite sessionCallback_promises, Hres2, Hsession.
        apply settle_pending. exact Hq2.
      * rewrite signInRun_abandoned.
        -- rewrite Hps2, lookup_app_l by lia. exact Hat.
        -- split; [rewrite Hps2, length_app; cbn; lia|].
           rewrite Hres2. intros [= Heq]. lia.
Qed.

(** ** authenticatePusher *)

Lemma error_messages_distinct (response : option obj) :
  Session.error_expired <> Session.error_code response
  /\ Session.error_code response <> Session.error_request
  /\ Session.error_expired <> Session.error_request.
Proof.
  unfold Session.error_expired, Session.error_code, Session.error_request.
  repeat split; intros H; cbv [String.append] in H; congruence.
Qed.

Section AuthenticatePusher.

Variable C : Constants.
Hypothesis codes_differ : JSON_CODE_SUCCESS C <> JSON_CODE_NOT_AUTHENTICATED C.

Variables (socketID channelName : string) (callback : Session.Callback).

Local Abbreviation request := (Session.authenticatePusher C socketID channelName callback).

Local Abbreviation invocation :=
  (ChannelAuthorizationCallback (Session.callbackId callback)).

Lemma authenticatePusher_issues_request (w : World) :
  calls request w
  = [LogInfo "[PusherAuthorizer] Attempting to authorize Pusher";
     ApiMakeRequestWithSideEffects "AuthenticatePusher"
       {[ "socket_id" := VStr socketID; "channel_name" := VStr channelName;
          "shouldRetry" := VBool false; "forceNetworkRequest" := VBool true ]}].
Proof. trace_calls. Qed.

Lemma reauthenticatePusher_calls (w : World) :
  filter is_callback (calls Session.reauthenticatePusher w) = []
  /\ reauthThrottle (exec Session.reauthenticatePusher w)
     = snd (Lodash.debounced Session.reauthenticateWait Session.reauthenticateOptions
              (now w) (reauthThrottle w)).
Proof.
  unfold Session.reauthenticatePusher, Session.throttled, calls, exec, bind, get, modify.
  cbn [Lodash.step fst snd].
  destruct (Lodash.debounced _ _ _ _) as [[|] s1]; cbn; rewrite <- ?app_assoc;
    rewrite ?drop_app_length, ?drop_all; split; reflexivity.
Qed.

Lemma debounced_lastCallTime (wait : Z) (opts : Lodash.options) (t : Z) (s : Lodash.state) :
  Lodash.lastCallTime (snd (Lodash.debounced wait opts t s)) = Some t.
Proof.
  unfold Lodash.debounced, Lodash.leadingEdge, Lodash.invokeFunc. cbn.
  destruct (Lodash.shouldInvoke wait opts t s), (Lodash.timerId s),
    (Lodash.maxing opts), (Lodash.leading opts); reflexivity.
Qed.

(** The handler of a response, followed by the handler of what it throws. *)
Local Abbreviation settled response :=
  (let! handled := Session.authenticatePusher_then C channelName callback response in
   match handled with
   | Session.Returns => ret Session.Returns
   | Session.Throws thrown => Session.authenticatePusher_catch channelName callback thrown
   end).

Ltac run_handler :=
  unfold Session.authenticatePusher_catch, Session.invoke, throws, calls, exec, bind, emit,
    modify, ret;
  cbn [fst snd trace with_trace reauthThrottle].

Lemma settled_not_authenticated (response : option obj) (w : World) :
  jsonCodeOf response = Some (VNum (JSON_CODE_NOT_AUTHENTICATED C)) ->
  let m := settled response in
  if throws callback (Some Session.error_expired) Session.noAuth
  then filter is_callback (calls m w)
       = [invocation (Some Session.error_expired) Session.noAuth;
          invocation (Some Session.error_request) Session.noAuth]
       /\ reauthThrottle (exec m w) = reauthThrottle w
       /\ filter is_reauthenticate (calls m w) = []
  else filter is_callback (calls m w)
       = [invocation (Some Session.error_expired) Session.noAuth]
       /\ reauthThrottle (exec m w)
          = snd (Lodash.debounced Session.reauthenticateWait Session.reauthenticateOptions
                   (now w) (reauthThrottle w)).
Proof.
  intros Hcode m. subst m. unfold Session.authenticatePusher_then.
  fold (jsonCodeOf response). rewrite Hcode, bool_decide_eq_true_2 by reflexivity.
  unfold Session.reauthenticatePusher, Session.throttled, get. run_handler.
  destruct (Session.callbackThrows callback _ _) as [thrown|].
  - cbn [fst snd trace with_trace reauthThrottle].
    rewrite <- ?app_assoc, drop_app_length. repeat split; reflexivity.
  - cbn [Lodash.step fst snd trace with_trace reauthThrottle now with_now].
    cbn -[Lodash.debounced].
    destruct (Lodash.debounced _ _ _ _) as [[|] s1]; cbn; rewrite <- ?app_assoc;
      rewrite ?drop_app_length; split; reflexivity.
Qed.

Lemma settled_other_failure (response : option obj) (w : World) :
  jsonCodeOf response <> Some (VNum (JSON_CODE_NOT_AUTHENTICATED C)) ->
  jsonCodeOf response <> Some (VNum (JSON_CODE_SUCCESS C)) ->
  let m := settled response in
  filter is_callback (calls m w)
  = invocation (Some (Session.error_code response)) Session.noAuth
    :: (if throws callback (Some (Session.error_code response)) Session.noAuth
        then [invocation (Some Session.error_request) Session.noAuth] else [])
  /\ reauthThrottle (exec m w) = reauthThrottle w
  /\ filter is_reauthenticate (calls m w) = [].
Proof.
  intros Hna Hs m. subst m. unfold Session.authenticatePusher_then.
  fold (jsonCodeOf response).
  rewrite (bool_decide_eq_false_2 _ Hna), (bool_decide_eq_false_2 _ Hs).
  cbn [negb]. run_handler.
  destruct (Session.callbackThrows callback _ _) as [thrown|];
    cbn [fst snd trace with_trace reauthThrottle];
    rewrite <- ?app_assoc, drop_app_length; repeat split; reflexivity.
Qed.

Lemma settled_success (response : option obj) (w : World) :
  jsonCodeOf response = Some (VNum (JSON_CODE_SUCCESS C)) ->
  let m := settled response in
  exists payload,
    response = Some payload
    /\ filter is_callback (calls m w)
       = invocation None payload
         :: (if throws callback None payload
             then [invocation (Some Session.error_request) Session.noAuth] else [])
    /\ reauthThrottle (exec m w) = reauthThrottle w
    /\ filter is_reauthenticate (calls m w) = [].
Proof.
  intros Hs m. subst m. unfold Session.authenticatePusher_then.
  fold (jsonCodeOf response). rewrite Hs.
  rewrite bool_decide_eq_false_2 by (intros [= H]; apply codes_differ; exact H).
  rewrite bool_decide_eq_true_2 by reflexivity. cbn [negb].
  destruct response as [payload|]; [|discriminate Hs].
  exists payload. cbn [default]. run_handler.
  destruct (Session.callbackThrows callback _ _) as [thrown|];
    cbn [fst snd trace with_trace reauthThrottle];
    rewrite <- ?app_assoc, drop_app_length; repeat split; reflexivity.
Qed.

Lemma catch_request_failed (error : string) (w : World) :
  let m := Session.authenticatePusher_catch channelName callback error in
  filter is_callback (calls m w)
  = [invocation (Some Session.error_request) Session.noAuth]
  /\ reauthThrottle (exec m w) = reauthThrottle w
  /\ filter is_reauthenticate (calls m w) = [].
Proof.
  intros m. subst m. run_handler.
  rewrite <- ?app_assoc, drop_app_length. repeat split; reflexivity.
Qed.

(** C4.  When the success code and the not-authenticated code differ, every
    call [authenticatePusher socketID channelName callback] issues the
    authorization request and nothing else, and the request ends in exactly
    one of four ways.  (a) The response carries the not-authenticated code:
    the callback gets the expired-token error and, when it returns,
    [reauthenticatePusher] is called at that time.  (b) The response carries
    any other code than success, or none: the callback gets an error that
    names code and message.  (c) The response carries the success code: the
    callback gets no error and the response itself.  (d) The request fails:
    the callback gets the request-failed error.  The callback is invoked
    exactly once in (d), and in (a), (b) and (c) whenever it returns; when it
    throws in (a), (b) or (c), what it throws is caught like a failed
    request: the callback is invoked a second time, with the request-failed
    error, and in (a) no re-authentication is scheduled.  The throttled
    function is touched in (a) only.  The three errors are pairwise
    different. *)
Theorem authenticatePusher_outcomes (w : World) (r : Session.RequestResult) :
  let w1 := exec request w in
  let handler := eval request w r in
  let w2 := exec handler w1 in
  let invoked := filter is_callback (calls handler w1) in
  let untouched :=
    reauthThrottle w2 = reauthThrottle w1
    /\ filter is_reauthenticate (calls handler w1) = [] in
  let again := invocation (Some Session.error_request) Session.noAuth in
  calls request w
  = [LogInfo "[PusherAuthorizer] Attempting to authorize Pusher";
     ApiMakeRequestWithSideEffects "AuthenticatePusher"
       {[ "socket_id" := VStr socketID; "channel_name" := VStr channelName;
          "shouldRetry" := VBool false; "forceNetworkRequest" := VBool true ]}]
  /\ match outcomeOf C r with
     | NotAuthenticated =>
         if throws callback (Some Session.error_expired) Session.noAuth
         then invoked = [invocation (Some Session.error_expired) Session.noAuth; again]
              /\ untouched
         else invoked = [invocation (Some Session.error_expired) Session.noAuth]
              /\ reauthThrottle w2
                 = snd (Lodash.debounced Session.reauthenticateWait
                          Session.reauthenticateOptions (now w1) (reauthThrottle w1))
              /\ Lodash.lastCallTime (reauthThrottle w2) = Some (now w1)
     | OtherFailure =>
         exists response,
           r = Session.Resolves response
           /\ invoked
              = invocation (Some (Session.error_code response)) Session.noAuth
                :: (if throws callback (Some (Session.error_code response)) Session.noAuth
                    then [again] else [])
           /\ untouched
     | Success =>
         exists payload,
           r = Session.Resolves (Some payload)
           /\ invoked
              = invocation None payload
                :: (if throws callback None payload then [again] else [])
           /\ untouched
     | RequestFailed => invoked = [again] /\ untouched
     end
  /\ (forall response,
        Session.error_expired <> Session.error_code response
        /\ Session.error_code response <> Session.error_request
        /\ Session.error_expired <> Session.error_request).
Proof.
  intros w1 handler w2 invoked untouched again.
  split; [apply authenticatePusher_issues_request|].
  split; [|apply error_messages_distinct].
  subst untouched invoked w2 again.
  destruct r as [response|error]; cbn [outcomeOf].
  - assert (Hh : handler = settled response) by reflexivity.
    rewrite Hh. clear Hh handler.
    destruct (decide (jsonCodeOf response = Some (VNum (JSON_CODE_SUCCESS C)))) as [Hs|Hs];
      [|destruct (decide (jsonCodeOf response
                          = Some (VNum (JSON_CODE_NOT_AUTHENTICATED C)))) as [Hna|Hna]].
    + destruct (settled_success response w1 Hs) as (payload & -> & H1 & H2 & H3).
      exists payload. repeat split; assumption.
    + pose proof (settled_not_authenticated response w1 Hna) as H. cbn zeta in H.
      destruct (throws callback _ _); [exact H|].
      destruct H as [H1 H2]. split; [exact H1|]. split; [exact H2|].
      rewrite H2. apply debounced_lastCallTime.
    + destruct (settled_other_failure response w1 Hna Hs) as (H1 & H2 & H3).
      exists response. repeat split; assumption.
  - assert (Hh : handler = Session.authenticatePusher_catch channelName callback error)
      by reflexivity.
    rewrite Hh. clear Hh handler.
    apply catch_request_failed.
Qed.

End AuthenticatePusher.

(** A callback that throws is invoked twice for one response, and after an
    expired session nothing is re-authenticated. *)
Lemma authenticatePusher_callback_invoked_twice :
  let request :=
    Session.authenticatePusher sampleConstants "1.1" "private-user" (throwingCallback 7) in
  let w1 := exec request initialWorld in
  let handler := eval request initialWorld (Session.Resolves expiredResponse) in
  outcomeOf sampleConstants (Session.Resolves expiredResponse) = NotAuthenticated
  /\ filter is_callback (calls handler w1)
     = [ChannelAuthorizationCallback 7 (Some Session.error_expired) Session.noAuth;
        ChannelAuthorizationCallback 7 (Some Session.error_request) Session.noAuth]
  /\ length (filter is_callback (calls handler w1)) = 2%nat
  /\ filter is_reauthenticate (calls handler w1) = []
  /\ reauthThrottle (exec handler w1) = reauthThrottle w1.
Proof. vm_compute. repeat split; reflexivity. Qed.

(** ** reauthenticatePusher *)

Lemma executions_app (wait : Z) (opts : Lodash.options) (l1 l2 : list Lodash.action) :
  forall s,
    Lodash.executions wait opts (l1 ++ l2) s
    = let '(n1, s1) := Lodash.executions wait opts l1 s in
      let '(n2, s2) := Lodash.executions wait opts l2 s1 in
      ((n1 + n2)%nat, s2).
Proof.
  induction l1 as [|a l1 IH]; intros s; cbn [Lodash.executions app].
  - destruct (Lodash.executions wait opts l2 s). reflexivity.
  - destruct (Lodash.step wait opts a s) as [fired s1]. rewrite IH.
    destruct (Lodash.executions wait opts l1 s1) as [n1 s2].
    destruct (Lodash.executions wait opts l2 s2) as [n2 s3].
    destruct fired; reflexivity.
Qed.

Lemma step_in_window (t0 lo : Z) (a : Lodash.action) (s : Lodash.state) :
  in_window t0 lo s ->
  lo <= action_time a < t0 + Session.reauthenticateWait ->
  fst (Lodash.step Session.reauthenticateWait Session.reauthenticateOptions a s) = false
  /\ in_window t0 (action_time a)
       (snd (Lodash.step Session.reauthenticateWait Session.reauthenticateOptions a s)).
Proof.
  intros (Hinv & Htimer & lc & Hlc & Hrange) Ht.
  unfold Session.reauthenticateOptions, Session.reauthenticateWait in *.
  destruct a as [t|t]; cbn [Lodash.step action_time] in *.
  - unfold Lodash.debounced, Lodash.shouldInvoke. rewrite Hlc, Hinv, Htimer. cbn.
    rewrite ?Z.max_id.
    replace (5000 <=? t - lc) with false by lia.
    replace (t - lc <? 0) with false by lia.
    replace (5000 <=? t - t0) with false by lia.
    cbn. split; [reflexivity|]. unfold in_window. cbn.
    split; [reflexivity|]. split; [reflexivity|]. exists t. split; [reflexivity | lia].
  - rewrite Htimer. replace (t0 + 5000 <=? t) with false by lia.
    cbn. split; [reflexivity|]. unfold in_window.
    split; [exact Hinv|]. split; [exact Htimer|]. exists lc. split; [exact Hlc | lia].
Qed.

Lemma executions_in_window (t0 : Z) (acts : list Lodash.action) :
  forall lo s,
    in_window t0 lo s ->
    within lo (t0 + Session.reauthenticateWait) acts = true ->
    fst (Lodash.executions Session.reauthenticateWait Session.reauthenticateOptions acts s)
    = 0%nat
    /\ exists hi,
         in_window t0 hi
           (snd (Lodash.executions Session.reauthenticateWait
                   Session.reauthenticateOptions acts s)).
Proof.
  induction acts as [|a acts IH]; intros lo s Hs Hacts.
  - split; [reflexivity|]. exists lo. exact Hs.
  - cbn [within] in Hacts.
    apply andb_prop in Hacts as [Ha Hrest]. apply andb_prop in Ha as [Hlo Hhi].
    apply Z.leb_le in Hlo. apply Z.ltb_lt in Hhi.
    destruct (step_in_window t0 lo a s Hs (conj Hlo Hhi)) as [Hfired Hnext].
    cbn [Lodash.executions].
    destruct (Lodash.step _ _ a s) as [fired s1]. cbn [fst snd] in *. subst fired.
    destruct (IH _ _ Hnext Hrest) as [Hcount Hwin].
    destruct (Lodash.executions _ _ acts s1) as [n s2]. cbn [fst snd] in *.
    split; [exact Hcount | exact Hwin].
Qed.

(** A call that executes the wrapped function opens a window. *)
Lemma debounced_opens_window (t0 : Z) (s : Lodash.state) :
  fst (Lodash.debounced Session.reauthenticateWait Session.reauthenticateOptions t0 s) = true ->
  in_window t0 t0
    (snd (Lodash.debounced Session.reauthenticateWait Session.reauthenticateOptions t0 s)).
Proof.
  unfold Lodash.debounced, Lodash.leadingEdge, Lodash.invokeFunc. cbn.
  destruct (Lodash.shouldInvoke _ _ t0 s), (Lodash.timerId s); cbn; try discriminate;
    intros _; (split; [reflexivity|]); (split; [reflexivity|]);
    exists t0; (split; [reflexivity | lia]).
Qed.

(** The timer that expires after the window executes nothing. *)
Lemma timer_after_window (t0 hi tfire : Z) (s : Lodash.state) :
  in_window t0 hi s ->
  t0 + Session.reauthenticateWait <= tfire ->
  fst (Lodash.step Session.reauthenticateWait Session.reauthenticateOptions
         (Lodash.Timer tfire) s) = false.
Proof.
  intros (Hinv & Htimer & lc & Hlc & Hrange) Ht.
  unfold Session.reauthenticateOptions, Session.reauthenticateWait in *.
  cbn [Lodash.step]. rewrite Htimer.
  replace (t0 + 5000 <=? tfire) with true by lia.
  unfold Lodash.timerExpired, Lodash.shouldInvoke, Lodash.trailingEdge.
  rewrite Hlc, Hinv. cbn. rewrite ?Z.max_id.
  replace (5000 <=? tfire - t0) with true by lia.
  rewrite !orb_true_r. reflexivity.
Qed.

Lemma throttleStep_world (a : Lodash.action) (w : World) :
  reauthThrottle (exec (throttleStep a) w)
  = snd (Lodash.step Session.reauthenticateWait Session.reauthenticateOptions a
           (reauthThrottle w))
  /\ exists es,
       trace (exec (throttleStep a) w) = trace w ++ es
       /\ reauthentications es
          = if fst (Lodash.step Session.reauthenticateWait Session.reauthenticateOptions a
                      (reauthThrottle w))
            then 1%nat else 0%nat.
Proof.
  unfold throttleStep, Session.reauthenticatePusher, Session.reauthenticatePusher_timer,
    Session.throttled, Session.at_time, exec, bind, get, modify.
  destruct a as [t|t]; cbn [action_time now with_now reauthThrottle fst snd];
    destruct (Lodash.step _ _ _ _) as [[|] s1]; cbn; (split; [reflexivity|]).
  1, 3: eexists; rewrite <- app_assoc; split; reflexivity.
  all: exists []; rewrite app_nil_r; split; reflexivity.
Qed.

Lemma reauthentications_app (es1 es2 : list Event) :
  reauthentications (es1 ++ es2) = (reauthentications es1 + reauthentications es2)%nat.
Proof. unfold reauthentications. rewrite filter_app, length_app. reflexivity. Qed.

Lemma throttleRun_world (acts : list Lodash.action) :
  forall w,
    reauthThrottle (exec (throttleRun acts) w)
    = snd (Lodash.executions Session.reauthenticateWait Session.reauthenticateOptions acts
             (reauthThrottle w))
    /\ exists es,
         trace (exec (throttleRun acts) w) = trace w ++ es
         /\ reauthentications es
            = fst (Lodash.executions Session.reauthenticateWait Session.reauthenticateOptions
                     acts (reauthThrottle w)).
Proof.
  induction acts as [|a acts IH]; intros w.
  - split; [reflexivity|]. exists []. rewrite app_nil_r. split; reflexivity.
  - cbn [throttleRun Lodash.executions]. rewrite exec_then.
    destruct (throttleStep_world a w) as (Hs & es1 & Ht1 & Hn1).
    destruct (IH (exec (throttleStep a) w)) as (Hs2 & es2 & Ht2 & Hn2).
    rewrite Hs in Hs2, Hn2.
    destruct (Lodash.step _ _ a (reauthThrottle w)) as [fired s1]. cbn [fst snd] in *.
    destruct (Lodash.executions _ _ acts s1) as [n s2]. cbn [fst snd] in *.
    split; [destruct fired; exact Hs2|].
    exists (es1 ++ es2). split.
    + rewrite Ht2, Ht1, app_assoc. reflexivity.
    + rewrite reauthentications_app, Hn1, Hn2. destruct fired; reflexivity.
Qed.

Lemma throttleRun_count (acts : list Lodash.action) (w : World) :
  reauthentications (calls (throttleRun acts) w)
  = fst (Lodash.executions Session.reauthenticateWait Session.reauthenticateOptions acts
           (reauthThrottle w)).
Proof.
  destruct (throttleRun_world acts w) as (_ & es & Ht & Hn).
  rewrite (calls_app _ _ _ Ht). exact Hn.
Qed.

(** The first call after the module is loaded executes the body. *)
Lemma first_call_executes (t0 : Z) :
  fst (Lodash.debounced Session.reauthenticateWait Session.reauthenticateOptions t0
         Lodash.init) = true.
Proof. reflexivity. Qed.

(** C5. [reauthenticatePusher] is throttled with a window of 5000
    milliseconds and without a trailing call: when a call at [t0] executes
    the re-authentication body (as the first call does), and the calls that
    follow it are made in order before [t0 + 5000], the body is executed
    exactly once over the whole burst, and still exactly once after the
    timer of the throttle has expired at or after [t0 + 5000]. *)
Theorem reauthenticatePusher_once_per_window
    (w : World) (t0 tfire : Z) (burst : list Lodash.action) :
  fst (Lodash.debounced Session.reauthenticateWait Session.reauthenticateOptions t0
         (reauthThrottle w)) = true ->
  within t0 (t0 + 5000) burst = true ->
  t0 + 5000 <= tfire ->
  Session.reauthenticateWait = 5000
  /\ Lodash.trailing Session.reauthenticateOptions = false
  /\ reauthentications (calls (throttleRun (Lodash.Call t0 :: burst)) w) = 1%nat
  /\ reauthentications
       (calls (throttleRun (Lodash.Call t0 :: burst ++ [Lodash.Timer tfire])) w) = 1%nat.
Proof.
  intros Hfirst Hburst Hfire.
  split; [reflexivity|]. split; [reflexivity|].
  pose proof (debounced_opens_window t0 (reauthThrottle w) Hfirst) as Hopen.
  assert (Hquiet := executions_in_window t0 burst t0 _ Hopen Hburst).
  destruct Hquiet as (Hzero & hi & Hwin).
  pose proof (timer_after_window t0 hi tfire _ Hwin Hfire) as Htimer.
  rewrite !throttleRun_count. cbn [Lodash.executions Lodash.step].
  destruct (Lodash.debounced _ _ t0 (reauthThrottle w)) as [fired s1].
  cbn [fst snd] in *. subst fired.
  rewrite executions_app.
  destruct (Lodash.executions _ _ burst s1) as [n s2]. cbn [fst snd] in *. subst n.
  cbn [Lodash.executions].
  destruct (Lodash.step _ _ (Lodash.Timer tfire) s2) as [fired s3].
  cbn [fst snd] in *. subst fired. split; reflexivity.
Qed.

(** ** setSupportAuthToken *)

Lemma onyx_Onyx_merge (k : Onyx.key) (patch : obj) (w : World) :
  onyx (exec (Session.Onyx_merge k patch) w) = Onyx.merge k patch (onyx w).
Proof. reflexivity. Qed.

Lemma onyx_Onyx_set (k : Onyx.key) (o : obj) (w : World) :
  onyx (exec (Session.Onyx_set k o) w) = Onyx.set k o (onyx w).
Proof. reflexivity. Qed.

Lemma onyx_emit {A} (m : M A) (e : Event) (w : World) :
  onyx (exec (run! m in emit e) w) = onyx (exec m w).
Proof. unfold exec, bind. destruct (m w). reflexivity. Qed.

Lemma session_merge_obj (patch : obj) (s : Onyx.store) :
  Onyx.session (Onyx.merge Onyx.SESSION patch s) = Onyx.merge_obj (Onyx.session s) patch.
Proof. reflexivity. Qed.

(** C6. [setSupportAuthToken token email accountID] has two outcomes.  For a
    non-empty token the session is merged: afterwards [authToken],
    [supportAuthToken], [email] and [accountID] are all set and every other
    field of the session is what it was.  For the empty token the session is
    set to the empty object. *)
Theorem setSupportAuthToken_two_outcomes
    (token email : string) (accountID : Z) (w : World) :
  let before := Onyx.session (onyx w) in
  let w1 := exec (Session.setSupportAuthToken token email accountID) w in
  let after := Onyx.session (onyx w1) in
  (token <> "" ->
     after !! "authToken" = Some (VStr "1")
     /\ after !! "supportAuthToken" = Some (VStr token)
     /\ after !! "email" = Some (VStr email)
     /\ after !! "accountID" = Some (VNum accountID)
     /\ forall k,
          k <> "authToken" -> k <> "supportAuthToken" -> k <> "email" -> k <> "accountID" ->
          after !! k = before !! k)
  /\ (token = "" -> onyx w1 Onyx.SESSION = Some (Onyx.EObj ∅) /\ after = ∅).
Proof.
  intros before w1 after. split.
  - intros Htoken.
    assert (Htruthy : truthy (Some token) = true).
    { cbn. destruct (String.eqb_spec token ""); [contradiction | reflexivity]. }
    subst after w1. unfold Session.setSupportAuthToken. rewrite Htruthy.
    rewrite onyx_emit, onyx_Onyx_merge, session_merge_obj. fold before.
    repeat split.
    1-4: apply merge_obj_set; [reflexivity | split; discriminate].
    intros k H1 H2 H3 H4. apply merge_obj_frame.
    rewrite !lookup_insert_ne by congruence. apply lookup_singleton_ne. congruence.
  - intros ->. split; reflexivity.
Qed.

(** ** signOut *)

Section SignOut.

Variable C : Constants.

(** C7. [signOut] first flushes the logs, then hands the logout command to
    the command client without waiting for it, then clears the cache and the
    timing data: these four calls are made in this order in every world, and
    when [signOut] returns the logout command is still in flight.  However
    that command ends (it succeeds, it fails, or it never resolves), settling
    it makes no further call and changes neither the calls already made nor
    the store. *)
Theorem signOut_fire_and_forget (w : World) (outcome : Outcome) :
  let w1 := exec (Session.signOut C) w in
  let logOut := {| command := "LogOut"; params := logOutParams C w; data := noData |} in
  calls (Session.signOut C) w
  = [LogInfo "Flushing logs before signing out";
     ApiWrite "LogOut" (logOutParams C w) noData;
     ClearCache;
     TimingClearData]
  /\ inflight w1 = inflight w ++ [logOut]
  /\ trace (exec (Session.API_settle outcome) w1) = trace w1
  /\ (inflight w = [] -> onyx (exec (Session.API_settle outcome) w1) = onyx w).
Proof.
  intros w1 logOut. split; [|split; [|split]].
  - unfold Session.signOut, logOutParams. trace_calls.
  - reflexivity.
  - unfold Session.API_settle, exec.
    destruct (inflight w1), outcome; reflexivity.
  - intros Hnone. unfold Session.API_settle, exec.
    assert (Hin : inflight w1 = [logOut]).
    { change (inflight w1) with (inflight w ++ [logOut]). rewrite Hnone. reflexivity. }
    rewrite Hin. destruct outcome; reflexivity.
Qed.

End SignOut.

(** ** signInWithValidateCode *)

Lemma truthy_Some (s : string) : truthy (Some s) = if decide (s = "") then false else true.
Proof.
  cbn. destruct (String.eqb_spec s ""), (decide (s = "")); try reflexivity; contradiction.
Qed.

(** A list of patches that ends with a merge of [autoAuthState] into the
    session leaves that state in the session. *)
Lemma apply_all_autoAuthState (us : list Onyx.update) (a : AutoAuthState) (s : Onyx.store) :
  Onyx.session
    (Onyx.apply_all
       (us ++ [Session.merge_into Onyx.SESSION {[ "autoAuthState" := VAuto a ]}]) s)
    !! "autoAuthState"
  = Some (VAuto a).
Proof.
  unfold Onyx.apply_all. rewrite fold_left_app. cbn [fold_left].
  unfold Onyx.apply at 1. cbn [Onyx.onyxMethod Onyx.ukey Onyx.uvalue Session.merge_into].
  rewrite session_merge_obj.
  apply merge_obj_set; [apply lookup_singleton_eq | split; discriminate].
Qed.

Section SignInWithValidateCode.

Variable C : Constants.

(** C8. [signInWithValidateCode accountID code twoFactorAuthCode] only asks
    for the device information; the continuation that receives it writes one
    command, [SigninUserWithLink], in whatever world it runs.  The validate
    code in its parameters is the one that the credentials held when the
    function was called if [twoFactorAuthCode] is non-empty, and [code] if
    it is empty.  In every case the optimistic patches leave [autoAuthState]
    at [SIGNING_IN], the success patches at [JUST_SIGNED_IN] and the failure
    patches at [FAILED], whatever the store was. *)
Theorem signInWithValidateCode_code_and_states
    (accountID : Z) (code twoFactorAuthCode deviceInfo : string) (w w' : World) :
  let continuation :=
    eval (Session.signInWithValidateCode C accountID code twoFactorAuthCode) w in
  let sent :=
    if decide (twoFactorAuthCode = "") then VStr code
    else field "validateCode" (credentials w) in
  calls (Session.signInWithValidateCode C accountID code twoFactorAuthCode) w
  = [DeviceGetDeviceInfoWithID]
  /\ exists ps d,
       calls (continuation deviceInfo) w' = [ApiWrite "SigninUserWithLink" ps d]
       /\ ps !! "validateCode" = Some sent
       /\ forall s,
            Onyx.session (Onyx.apply_all (optimisticData d) s) !! "autoAuthState"
            = Some (VAuto SIGNING_IN)
            /\ Onyx.session (Onyx.apply_all (successData d) s) !! "autoAuthState"
               = Some (VAuto JUST_SIGNED_IN)
            /\ Onyx.session (Onyx.apply_all (failureData d) s) !! "autoAuthState"
               = Some (VAuto FAILED).
Proof.
  intros continuation sent.
  assert (Hsent : (if truthy (Some twoFactorAuthCode)
                   then field "validateCode" (credentials w) else VStr code) = sent).
  { subst sent. rewrite truthy_Some. destruct (decide _); reflexivity. }
  split.
  - apply calls_app. reflexivity.
  - exists {[ "accountID" := VNum accountID;
              "validateCode" := sent;
              "twoFactorAuthCode" := VStr twoFactorAuthCode;
              "preferredLocale" := of_nullable (preferredLocale w');
              "deviceInfo" := VStr deviceInfo ]},
           (Session.signInWithValidateCode_data C accountID sent twoFactorAuthCode).
    split; [|split].
    + apply calls_app. subst continuation.
      unfold Session.signInWithValidateCode, eval, bind, get, ret. cbn [fst snd].
      rewrite Hsent. reflexivity.
    + rewrite lookup_insert_ne by discriminate. apply lookup_insert_eq.
    + intros s. unfold Session.signInWithValidateCode_data.
      cbn [optimisticData successData failureData].
      split; [|split].
      * apply (apply_all_autoAuthState [_]).
      * apply (apply_all_autoAuthState [_; _]).
      * apply (apply_all_autoAuthState [_]).
Qed.

End SignInWithValidateCode.

(** ** canAccessRouteByAnonymousUser *)

Lemma includes_elem_of {A} `{EqDecision A} (xs : list A) (x : A) :
  includes xs x = true <-> x ∈ xs.
Proof.
  unfold includes. rewrite existsb_exists. split.
  - intros (y & Hin & Heq). apply bool_decide_eq_true in Heq. subst y.
    apply list_elem_of_In. exact Hin.
  - intros Hin. exists x. split; [apply list_elem_of_In; exact Hin|].
    apply bool_decide_eq_true. reflexivity.
Qed.

Lemma prefix_nil (s : string) : String.prefix "" s = true.
Proof. destruct s; reflexivity. Qed.

Lemma append_cons (c : ascii) (s t : string) :
  (String c s ++ t)%string = String c (s ++ t)%string.
Proof. reflexivity. Qed.

Lemma append_empty (t : string) : ("" ++ t)%string = t.
Proof. reflexivity. Qed.

Lemma prefix_append (s t : string) : String.prefix s (s ++ t)%string = true.
Proof.
  induction s as [|c s IH].
  - apply prefix_nil.
  - rewrite append_cons. cbn [String.prefix].
    destruct (ascii_dec c c); [exact IH | contradiction].
Qed.

Lemma slice_append (s t : string) : slice (String.length s) (s ++ t)%string = t.
Proof.
  induction s as [|c s IH]; [reflexivity|].
  rewrite append_cons. cbn [String.length slice]. exact IH.
Qed.

Lemma prefix_inv (p s : string) :
  String.prefix p s = true -> exists q, s = (p ++ q)%string.
Proof.
  revert s. induction p as [|c p IH]; intros s Hp.
  - exists s. reflexivity.
  - destruct s as [|d s]; [discriminate|]. cbn [String.prefix] in Hp.
    destruct (ascii_dec c d) as [->|]; [|discriminate].
    destruct (IH s Hp) as [q ->]. exists q. reflexivity.
Qed.

Lemma replace_eq (s pat rep : string) :
  replace s pat rep
  = if String.prefix pat s then (rep ++ slice (String.length pat) s)%string
    else match s with
         | EmptyString => EmptyString
         | String c s' => String c (replace s' pat rep)
         end.
Proof. destruct s; reflexivity. Qed.

Lemma replace_at_front (s pat rep : string) :
  String.prefix pat s = true ->
  first_replaced s pat rep (rep ++ slice (String.length pat) s)%string.
Proof.
  intros Hp. apply prefix_inv in Hp as [q ->]. rewrite slice_append.
  left. exists "", q. split; [|reflexivity].
  split; [reflexivity|]. intros pre' post' _. cbn. lia.
Qed.

(** What [replace] returns is the string with the first occurrence
    replaced. *)
Lemma replace_first_replaced (s pat rep : string) :
  first_replaced s pat rep (replace s pat rep).
Proof.
  induction s as [|c s IH]; rewrite replace_eq;
    destruct (String.prefix pat _) eqn:Hp; try (apply replace_at_front; exact Hp).
  - right. split; [|reflexivity]. intros pre post H.
    destruct pre; [|discriminate]. rewrite append_empty in H.
    rewrite H, prefix_append in Hp. discriminate.
  - assert (Hfront : forall post, String c s <> (pat ++ post)%string).
    { intros post H. rewrite H, prefix_append in Hp. discriminate. }
    destruct IH as [(pre & post & [Heq Hmin] & Hr)|[Hnone Hr]].
    + left. exists (String c pre), post. split; [|rewrite Hr; reflexivity].
      split; [rewrite Heq at 1; reflexivity|].
      intros [|d pre'] post' H.
      * exfalso. exact (Hfront post' H).
      * rewrite append_cons in H. injection H as _ H.
        cbn [String.length]. apply le_n_S. exact (Hmin pre' post' H).
    + right. split; [|rewrite Hr; reflexivity].
      intros [|d pre] post H.
      * exact (Hfront post H).
      * rewrite append_cons in H. injection H as _ H. exact (Hnone pre post H).
Qed.

Lemma append_inj_length (pre pre' x x' : string) :
  (pre ++ x)%string = (pre' ++ x')%string ->
  String.length pre = String.length pre' ->
  pre = pre' /\ x = x'.
Proof.
  revert pre'. induction pre as [|c pre IH]; intros [|d pre'] H Hlen;
    try discriminate Hlen.
  - split; [reflexivity | exact H].
  - rewrite !append_cons in H. injection H as -> H.
    cbn [String.length] in Hlen. injection Hlen as Hlen.
    destruct (IH pre' H Hlen) as [-> ->]. split; reflexivity.
Qed.

(** The string with the first occurrence replaced is what [replace]
    returns. *)
Lemma first_replaced_replace (s pat rep r : string) :
  first_replaced s pat rep r -> r = replace s pat rep.
Proof.
  intros Hr. pose proof (replace_first_replaced s pat rep) as Hc.
  destruct Hr as [(pre & post & [Heq Hmin] & ->)|[Hnone ->]];
    destruct Hc as [(pre' & post' & [Heq' Hmin'] & ->)|[Hnone' ->]].
  - assert (Hlen : String.length pre = String.length pre').
    { apply Nat.le_antisymm; [exact (Hmin _ _ Heq') | exact (Hmin' _ _ Heq)]. }
    rewrite Heq in Heq'.
    destruct (append_inj_length _ _ _ _ Heq' Hlen) as [-> Hrest].
    destruct (append_inj_length _ _ _ _ Hrest eq_refl) as [_ ->]. reflexivity.
  - exfalso. exact (Hnone' _ _ Heq).
  - exfalso. exact (Hnone _ _ Heq').
  - reflexivity.
Qed.

Lemma startsWith_slash (route : string) :
  startsWith route "/" = true <-> exists rest, route = String "/" rest.
Proof.
  unfold startsWith. split.
  - intros Hp. apply prefix_inv in Hp as [q ->]. exists q. reflexivity.
  - intros [rest ->]. exact (prefix_append "/" rest).
Qed.

Lemma first_replaced_not_empty (s pat r : string) (c : ascii) (rep : string) :
  s <> "" -> first_replaced s pat (String c rep) r -> r <> "".
Proof.
  intros Hs [(pre & post & _ & ->)|[_ ->]]; [|exact Hs].
  destruct pre; discriminate.
Qed.

(** The route that is looked up in the list is the one that [looked_up]
    describes. *)
Lemma routeRemovedReportId_looked_up
    (parseReportRouteParams : string -> option string) (route n : string) :
  looked_up parseReportRouteParams route n
  <-> n = Session.routeRemovedReportId parseReportRouteParams route.
Proof.
  unfold Session.routeRemovedReportId.
  set (replaced := if truthy (parseReportRouteParams route)
                   then replace route (nullish (parseReportRouteParams route) "") ":reportID"
                   else route).
  assert (Hreplaced : forall r,
             ((exists id,
                 parseReportRouteParams route = Some id /\ id <> ""
                 /\ first_replaced route id ":reportID" r)
              \/ ((parseReportRouteParams route = None
                   \/ parseReportRouteParams route = Some "")
                  /\ r = route))
             <-> r = replaced).
  { intros r. subst replaced. destruct (parseReportRouteParams route) as [id|].
    - cbn [truthy nullish]. destruct (String.eqb_spec id "") as [->|Hne]; cbn [negb].
      + split.
        * intros [(id & [= <-] & Hne & _)|[_ ->]]; [contradiction | reflexivity].
        * intros ->. right. split; [right|]; reflexivity.
      + split.
        * intros [(id' & [= <-] & _ & Hr)|[[H|[= H]] _]];
            [apply first_replaced_replace; exact Hr | discriminate | contradiction].
        * intros ->. left. exists id. repeat split; [exact Hne|].
          apply replace_first_replaced.
    - cbn [truthy]. split.
      + intros [(id & H & _)|[_ ->]]; [discriminate | reflexivity].
      + intros ->. right. split; [left|]; reflexivity. }
  unfold looked_up. split.
  - intros (r & Hr & Hn). apply Hreplaced in Hr. subst r.
    destruct Hn as [[Hslash [c Hc]]|[Hslash ->]].
    + apply startsWith_slash in Hslash. rewrite Hslash, Hc. reflexivity.
    + destruct (startsWith route "/") eqn:Hs; [|reflexivity].
      apply startsWith_slash in Hs as [rest Hrest]. exfalso. exact (Hslash rest Hrest).
  - intros ->. exists replaced. split; [apply Hreplaced; reflexivity|].
    destruct (startsWith route "/") eqn:Hs.
    + left. apply startsWith_slash in Hs. split; [exact Hs|].
      assert (Hne : replaced <> "").
      { destruct Hs as [rest ->]. specialize (Hreplaced replaced).
        destruct (proj2 Hreplaced eq_refl) as [(id & _ & _ & Hr)|[_ Hr]].
        - eapply first_replaced_not_empty; [|exact Hr]. discriminate.
        - rewrite Hr. discriminate. }
      destruct replaced as [|c rest]; [contradiction|]. exists c. reflexivity.
    + right. split; [|reflexivity]. intros rest Hrest.
      assert (Hs' : startsWith route "/" = true)
        by (apply startsWith_slash; exists rest; exact Hrest).
      congruence.
Qed.

Section CanAccessRoute.

Variable C : Constants.
Variable getReportIDFromLink : option string -> string.
Variable parseReportRouteParams : string -> option string.

Local Abbreviation canAccess :=
  (Session.canAccessRouteByAnonymousUser C getReportIDFromLink parseReportRouteParams).

(** C9. For every route, [canAccessRouteByAnonymousUser] is [true] exactly
    when the route encodes a report identifier, or when the route, with the
    first occurrence in it of the identifier parsed from it replaced by
    [:reportID] (nothing is replaced when no identifier or the empty one is
    parsed, or when the identifier does not occur) and then with the first
    character of the result removed when the route begins with [/], is one of
    the three allowed templates (sign-in modal, report details, report
    details with share code); it is [false] for every other route.  The
    first occurrence need not be the place where the identifier is embedded
    in the route. *)
Theorem canAccessRouteByAnonymousUser_first_occurrence (route : string) :
  let allowed :=
    getReportIDFromLink (Some route) <> ""
    \/ exists n,
         looked_up parseReportRouteParams route n
         /\ n ∈ [SIGN_IN_MODAL C; REPORT_WITH_ID_DETAILS C;
                 REPORT_WITH_ID_DETAILS_SHARE_CODE C] in
  (canAccess route = true <-> allowed)
  /\ (canAccess route = false <-> ~ allowed).
Proof.
  intros allowed.
  assert (Hiff : canAccess route = true <-> allowed).
  { subst allowed. unfold Session.canAccessRouteByAnonymousUser.
    rewrite truthy_Some.
    destruct (decide (getReportIDFromLink (Some route) = "")) as [Hid|Hid].
    - destruct (includes _ (Session.routeRemovedReportId parseReportRouteParams route))
        eqn:Hin.
      + split; [|reflexivity]. intros _. right.
        exists (Session.routeRemovedReportId parseReportRouteParams route).
        split; [apply routeRemovedReportId_looked_up; reflexivity|].
        apply includes_elem_of. exact Hin.
      + split; [discriminate|]. intros [Hno|(n & Hn & Hin')]; [contradiction|].
        apply routeRemovedReportId_looked_up in Hn. subst n.
        apply includes_elem_of in Hin'.
        unfold Session.routesCanAccessByAnonymousUser in Hin. congruence.
    - split; [|reflexivity]. intros _. left. exact Hid. }
  split; [exact Hiff|].
  rewrite <- Hiff. destruct (canAccess route); split; congruence.
Qed.

End CanAccessRoute.

(** The specification opens [/r/r/details], where the identifier [r] stands
    after [r/]; the first [r] of the route is the one that is replaced, and
    the route is closed. *)
Lemma canAccessRouteByAnonymousUser_replaces_first_occurrence :
  sampleParse "/r/r/details" = Some "r"
  /\ sampleReportID (Some "/r/r/details") = ""
  /\ spec_canAccessRouteByAnonymousUser sampleConstants sampleReportID sampleParse
       "/r/r/details"
  /\ Session.routeRemovedReportId sampleParse "/r/r/details" = ":reportID/r/details"
  /\ sampleCanAccess "/r/r/details" = false.
Proof.
  split; [reflexivity|]. split; [reflexivity|]. split; [|split; reflexivity].
  right. exists "r/:reportID/details". split.
  - left. exists "r", "r/", "/details". repeat split. discriminate.
  - apply list_elem_of_In. right. left. reflexivity.
Qed.

(** When the identifier found in the route does not begin with [/], dropping
    the [/] at the start of the route and dropping it at the start of the
    route with the identifier replaced are the same. *)
Lemma replace_keeps_leading_slash (route id : string) :
  id <> "" -> startsWith id "/" = false ->
  startsWith (replace route id ":reportID") "/" = startsWith route "/".
Proof.
  intros Hid Hslash. unfold startsWith in *.
  destruct id as [|d id]; [contradiction|].
  destruct route as [|c route]; [reflexivity|].
  cbn [replace]. destruct (String.prefix (String d id) (String c route)) eqn:Hp;
    [|cbn [String.prefix]; destruct (ascii_dec "/" c); rewrite ?prefix_nil; reflexivity].
  cbn [String.prefix] in Hp, Hslash |- *.
  destruct (ascii_dec d c) as [->|]; [|discriminate].
  destruct (ascii_dec "/" c) as [Heq|Hne].
  - rewrite prefix_nil in Hslash. discriminate.
  - reflexivity.
Qed.

(** So, for a parser whose identifiers do not begin with [/], the route that
    is looked up is the route with the identifier replaced, without the [/]
    at its own start. *)
Lemma routeRemovedReportId_strips_own_slash
    (parseReportRouteParams : string -> option string) (route : string) :
  (forall id, parseReportRouteParams route = Some id -> startsWith id "/" = false) ->
  let id := parseReportRouteParams route in
  let replaced :=
    if truthy id then replace route (nullish id "") ":reportID" else route in
  Session.routeRemovedReportId parseReportRouteParams route
  = if startsWith replaced "/" then slice 1 replaced else replaced.
Proof.
  intros Hparse id replaced. unfold Session.routeRemovedReportId. fold id. fold replaced.
  assert (Hsame : startsWith replaced "/" = startsWith route "/").
  { subst replaced. destruct id as [i|] eqn:Hid; [|reflexivity].
    cbn [truthy nullish]. destruct (String.eqb_spec i "") as [->|Hne]; [reflexivity|].
    cbn [negb]. apply replace_keeps_leading_slash; [exact Hne|].
    apply Hparse. exact Hid. }
  rewrite Hsame. reflexivity.
Qed.

(** ** validate *)

Section Validate.

Variable SSN_LAST_4 : string.
Variable isValidSSNLastFour : string -> bool.
Variable isRequiredFulfilled : option string -> bool.
Variable fieldRequired : string.

(** An empty value does not fulfil a requirement, and the required-field
    error is not the error of the format check. *)
Hypothesis empty_unfulfilled :
  forall v, SocialSecurityNumber.empty_field v = true -> isRequiredFulfilled v = false.
Hypothesis other_error : fieldRequired <> "bankAccount.error.ssnLast4".

Local Abbreviation validate :=
  (SocialSecurityNumber.validate SSN_LAST_4 isValidSSNLastFour isRequiredFulfilled
     fieldRequired).

Lemma getFieldRequiredErrors_step (values : gmap string string) :
  SocialSecurityNumber.getFieldRequiredErrors isRequiredFulfilled fieldRequired values
    (SocialSecurityNumber.STEP_FIELDS SSN_LAST_4)
  = if isRequiredFulfilled (values !! SSN_LAST_4) then ∅
    else {[ SSN_LAST_4 := fieldRequired ]}.
Proof.
  unfold SocialSecurityNumber.getFieldRequiredErrors, SocialSecurityNumber.STEP_FIELDS.
  cbn [fold_left]. destruct (isRequiredFulfilled _); reflexivity.
Qed.

Lemma format_check_false (ssn : option string) :
  SocialSecurityNumber.empty_field ssn = true ->
  truthy ssn && negb (isValidSSNLastFour (nullish ssn "")) = false.
Proof.
  unfold SocialSecurityNumber.empty_field. intros H.
  apply negb_true_iff in H. rewrite H. reflexivity.
Qed.

(** C10. For every record of form values, whatever the name of the step's
    input: the errors that [validate] returns hold the required-field error
    under the input's name when that field is empty, and hold
    [bankAccount.error.ssnLast4] under [ssn] exactly when the record's [ssn]
    is non-empty and not a valid last-four number.  When the input's name is
    not [ssn], the two checks read different fields: the error under the
    input's name is decided by that field alone, the error under [ssn] by
    [ssn] alone, and there is no error under any other name. *)
Theorem validate_required_and_format (values : gmap string string) :
  (SocialSecurityNumber.empty_field (values !! SSN_LAST_4) = true ->
     validate values !! SSN_LAST_4 = Some fieldRequired)
  /\ (validate values !! "ssn" = Some "bankAccount.error.ssnLast4"
      <-> exists ssn,
            values !! "ssn" = Some ssn /\ ssn <> "" /\ isValidSSNLastFour ssn = false)
  /\ (SSN_LAST_4 <> "ssn" ->
      validate values !! SSN_LAST_4
      = (if isRequiredFulfilled (values !! SSN_LAST_4) then None else Some fieldRequired)
      /\ validate values !! "ssn"
         = (if truthy (values !! "ssn")
               && negb (isValidSSNLastFour (nullish (values !! "ssn") ""))
            then Some "bankAccount.error.ssnLast4" else None)
      /\ forall k, k <> SSN_LAST_4 -> k <> "ssn" -> validate values !! k = None).
Proof.
  split; [|split].
  - intros Hempty. unfold SocialSecurityNumber.validate.
    rewrite getFieldRequiredErrors_step, (empty_unfulfilled _ Hempty).
    destruct (decide (SSN_LAST_4 = "ssn")) as [Heq|Hne].
    + rewrite <- Heq, (format_check_false _ Hempty). apply lookup_singleton_eq.
    + destruct (truthy _ && negb _); [rewrite lookup_insert_ne by congruence|];
        apply lookup_singleton_eq.
  - unfold SocialSecurityNumber.validate. rewrite getFieldRequiredErrors_step.
    destruct (values !! "ssn") as [ssn|] eqn:Hv; cbn [truthy nullish].
    + destruct (String.eqb_spec ssn "") as [->|Hne]; cbn [negb andb];
        [|destruct (isValidSSNLastFour ssn) eqn:Hvalid; cbn [negb]].
      * split; [|intros (s & [= <-] & Hs & _); contradiction].
        destruct (isRequiredFulfilled _); [rewrite lookup_empty; discriminate|].
        intros H. apply lookup_singleton_Some in H as [_ H]. contradiction.
      * split; [|intros (s & [= <-] & _ & Hs); congruence].
        destruct (isRequiredFulfilled _); [rewrite lookup_empty; discriminate|].
        intros H. apply lookup_singleton_Some in H as [_ H]. contradiction.
      * split; [intros _|intros _; apply lookup_insert_eq].
        exists ssn. repeat split; assumption.
    + cbn [andb]. split; [|intros (s & Hs & _); discriminate].
      destruct (isRequiredFulfilled _); [rewrite lookup_empty; discriminate|].
      intros H. apply lookup_singleton_Some in H as [_ H]. contradiction.
  - intros Hname. unfold SocialSecurityNumber.validate.
    rewrite getFieldRequiredErrors_step. split; [|split].
    + destruct (truthy _ && negb _); [rewrite lookup_insert_ne by congruence|];
        destruct (isRequiredFulfilled _);
        first [apply lookup_empty | apply lookup_singleton_eq].
    + destruct (truthy _ && negb _); [apply lookup_insert_eq|].
      destruct (isRequiredFulfilled _);
        [apply lookup_empty | apply lookup_singleton_ne; exact Hname].
    + intros k Hk Hs.
      destruct (truthy _ && negb _); [rewrite lookup_insert_ne by congruence|];
        destruct (isRequiredFulfilled _);
        first [apply lookup_empty | apply lookup_singleton_ne; congruence].
Qed.

End Validate.

(** * Evaluations on sample inputs *)

Example canAccess_report_details : sampleCanAccess "/r/123/details" = true.
Proof. reflexivity. Qed.

Example canAccess_share_code : sampleCanAccess "r/123/details/shareCode" = true.
Proof. reflexivity. Qed.

Example canAccess_report : sampleCanAccess "r/123" = true.
Proof. reflexivity. Qed.

Example canAccess_sign_in_modal : sampleCanAccess "sign-in-modal" = true.
Proof. reflexivity. Qed.

Example canAccess_settings : sampleCanAccess "settings/profile" = false.
Proof. reflexivity. Qed.

(** Only the first occurrence of the identifier is replaced. *)
Example canAccess_first_occurrence :
  Session.routeRemovedReportId sampleParse "/r/r/details" = ":reportID/r/details"
  /\ sampleCanAccess "/r/r/details" = false.
Proof. split; reflexivity. Qed.

Example validate_both_errors :
  sampleValidate {[ "ssn" := "12" ]}
  = {[ "ssnLast4" := "common.error.fieldRequired"; "ssn" := "bankAccount.error.ssnLast4" ]}.
Proof. vm_compute. reflexivity. Qed.

Example validate_no_error :
  sampleValidate {[ "ssnLast4" := "1234"; "ssn" := "1234" ]} = ∅.
Proof. vm_compute. reflexivity. Qed.

(** With a trailing call the same burst executes the function twice. *)
Example trailing_call_executes_twice :
  fst (Lodash.executions 5000 (Lodash.throttle 5000 None None)
         (Lodash.Call 1000 :: tenCalls ++ [Lodash.Timer 6000]) Lodash.init) = 2%nat
  /\ fst (Lodash.executions 5000 (Lodash.throttle 5000 None (Some false))
            (Lodash.Call 1000 :: tenCalls ++ [Lodash.Timer 6000]) Lodash.init) = 1%nat.
Proof. split; reflexivity. Qed.

(** A call made five seconds after the first executes the function again. *)
Example call_at_window_end_executes :
  fst (Lodash.executions 5000 Session.reauthenticateOptions
         [Lodash.Call 1000; Lodash.Call 6000] Lodash.init) = 2%nat.
Proof. reflexivity. Qed.

(** An anonymous user is sent to the sign-in modal and is not signed out. *)
Example anonymous_action_is_replaced :
  eval (Session.checkIfActionIsAllowed sampleConstants 42%nat false) anonymousWorld
  = inr (fun _ => Session.signOutAndRedirectToSignIn sampleConstants)
  /\ eval (Session.checkIfActionIsAllowed sampleConstants 42%nat true) anonymousWorld
     = inl 42%nat
  /\ eval (Session.checkIfActionIsAllowed sampleConstants 42%nat false) signedInWorld
     = inl 42%nat
  /\ calls (Session.signOutAndRedirectToSignIn sampleConstants) anonymousWorld
     = [LogInfo "Redirecting to Sign In because signOut() was called";
        HideContextMenu false;
        NavigationNavigate "sign-in-modal";
        LinkingGetInitialURL].
Proof. repeat split; reflexivity. Qed.

(** Ten authorizations that fail with an expired session within five
    seconds: ten callbacks, one re-authentication. *)
Example ten_expired_authorizations :
  let es :=
    calls (authorizeAt [1000; 1000; 1001; 1500; 2000; 2500; 3000; 4000; 5000; 5999])
      initialWorld in
  length (filter is_callback es) = 10%nat /\ reauthentications es = 1%nat.
Proof. vm_compute. split; reflexivity. Qed.

(** * Instances of the theorems with hypotheses *)

Lemma waitForUserSignIn_single_waiter_witness :
  promises (exec Session.waitForUserSignIn signedInWorld) !! 0%nat = Some (Fulfilled true)
  /\ promises
       (exec (Session.sessionCallback (Some {[ "authToken" := VStr "token" ]}))
          (exec (signInRun [SessionChanged None])
             (exec Session.waitForUserSignIn initialWorld))) !! 0%nat
     = Some (Fulfilled true).
Proof.
  split.
  - destruct (waitForUserSignIn_single_waiter signedInWorld) as (_ & H & _).
    apply H. reflexivity.
  - destruct (waitForUserSignIn_single_waiter initialWorld) as (_ & _ & H).
    assert (Hnone : truthy (sessionAuthToken initialWorld) = false) by reflexivity.
    destruct (H Hnone) as (_ & _ & Hsession & _).
    assert (Hquiet : forallb (fun s => negb (has_token s)) [None] = true) by reflexivity.
    assert (Htoken : has_token (Some {[ "authToken" := VStr "token" ]}) = true)
      by (vm_compute; reflexivity).
    destruct (Hsession [None] (Some {[ "authToken" := VStr "token" ]}) Hquiet Htoken)
      as (_ & Hfulfilled & _).
    exact Hfulfilled.
Defined.

Lemma authenticatePusher_outcomes_witness :
  JSON_CODE_SUCCESS sampleConstants <> JSON_CODE_NOT_AUTHENTICATED sampleConstants
  /\ forall r,
       let request :=
         Session.authenticatePusher sampleConstants "1.1" "private-user" (quietCallback 7) in
       calls request initialWorld
       = [LogInfo "[PusherAuthorizer] Attempting to authorize Pusher";
          ApiMakeRequestWithSideEffects "AuthenticatePusher"
            {[ "socket_id" := VStr "1.1"; "channel_name" := VStr "private-user";
               "shouldRetry" := VBool false; "forceNetworkRequest" := VBool true ]}]
       /\ length (filter is_callback
                    (calls (eval request initialWorld r) (exec request initialWorld)))
          = 1%nat.
Proof.
  assert (Hcodes : JSON_CODE_SUCCESS sampleConstants
                   <> JSON_CODE_NOT_AUTHENTICATED sampleConstants)
    by (cbn; lia).
  split; [exact Hcodes|]. intros r request.
  destruct (authenticatePusher_outcomes sampleConstants Hcodes
              "1.1" "private-user" (quietCallback 7) initialWorld r) as (Hrequest & H & _).
  fold request in Hrequest, H. split; [exact Hrequest|].
  unfold throws in H. cbn [quietCallback Session.callbackThrows] in H.
  destruct (outcomeOf sampleConstants r).
  - destruct H as (-> & _). reflexivity.
  - destruct H as (response & _ & -> & _). reflexivity.
  - destruct H as (payload & _ & -> & _). reflexivity.
  - destruct H as (-> & _). reflexivity.
Defined.

Lemma reauthenticatePusher_once_per_window_witness :
  reauthentications
    (calls (throttleRun (Lodash.Call 1000 :: tenCalls ++ [Lodash.Timer 6000])) initialWorld)
  = 1%nat.
Proof.
  apply (reauthenticatePusher_once_per_window initialWorld 1000 6000 tenCalls).
  - reflexivity.
  - reflexivity.
  - lia.
Defined.

Lemma setSupportAuthToken_two_outcomes_witness :
  Onyx.session (onyx (exec (Session.setSupportAuthToken "tok" "a@b.c" 7) initialWorld))
    !! "supportAuthToken" = Some (VStr "tok")
  /\ Onyx.session (onyx (exec (Session.setSupportAuthToken "" "a@b.c" 7) initialWorld)) = ∅.
Proof.
  split.
  - destruct (setSupportAuthToken_two_outcomes "tok" "a@b.c" 7 initialWorld) as [H _].
    apply H. discriminate.
  - destruct (setSupportAuthToken_two_outcomes "" "a@b.c" 7 initialWorld) as [_ H].
    apply H. reflexivity.
Defined.

Lemma signOut_fire_and_forget_witness :
  onyx (exec (Session.API_settle Fails) (exec (Session.signOut sampleConstants) initialWorld))
  = onyx initialWorld.
Proof.
  destruct (signOut_fire_and_forget sampleConstants initialWorld Fails) as (_ & _ & _ & H).
  apply H. reflexivity.
Defined.

Lemma validate_required_and_format_witness :
  sampleValidate {[ "ssn" := "12" ]} !! "ssnLast4" = Some "common.error.fieldRequired"
  /\ sampleValidate {[ "ssn" := "12" ]} !! "ssn" = Some "bankAccount.error.ssnLast4".
Proof.
  assert (Hempty : forall v, SocialSecurityNumber.empty_field v = true ->
                     negb (SocialSecurityNumber.empty_field v) = false)
    by (intros v ->; reflexivity).
  assert (Herror : "common.error.fieldRequired" <> "bankAccount.error.ssnLast4")
    by discriminate.
  assert (Hname : "ssnLast4" <> "ssn") by discriminate.
  destruct (validate_required_and_format "ssnLast4" SocialSecurityNumber.four_digits
              (fun v => negb (SocialSecurityNumber.empty_field v))
              "common.error.fieldRequired" Hempty Herror {[ "ssn" := "12" ]})
    as (Hrequired & _ & Hsplit).
  split.
  - apply Hrequired. reflexivity.
  - destruct (Hsplit Hname) as (_ & Hssn & _). unfold sampleValidate.
    rewrite Hssn. reflexivity.
Defined.

(** * Further properties *)

(** ** Patch lists on the store *)

Lemma apply_all_cons (u : Onyx.update) (us : list Onyx.update) (s : Onyx.store) :
  Onyx.apply_all (u :: us) s = Onyx.apply_all us (Onyx.apply u s).
Proof. reflexivity. Qed.

Lemma apply_all_nil (s : Onyx.store) : Onyx.apply_all [] s = s.
Proof. reflexivity. Qed.

Lemma account_apply_account (p : obj) (s : Onyx.store) :
  accountOf (Onyx.apply (Session.merge_into Onyx.ACCOUNT p) s)
  = Onyx.merge_obj (accountOf s) p.
Proof. reflexivity. Qed.

Lemma account_apply_credentials (p : obj) (s : Onyx.store) :
  accountOf (Onyx.apply (Session.merge_into Onyx.CREDENTIALS p) s) = accountOf s.
Proof. reflexivity. Qed.

Lemma account_apply_session (p : obj) (s : Onyx.store) :
  accountOf (Onyx.apply (Session.merge_into Onyx.SESSION p) s) = accountOf s.
Proof. reflexivity. Qed.

Lemma credentials_apply_credentials (p : obj) (s : Onyx.store) :
  credentialsOf (Onyx.apply (Session.merge_into Onyx.CREDENTIALS p) s)
  = Onyx.merge_obj (credentialsOf s) p.
Proof. reflexivity. Qed.

Lemma credentials_apply_account (p : obj) (s : Onyx.store) :
  credentialsOf (Onyx.apply (Session.merge_into Onyx.ACCOUNT p) s) = credentialsOf s.
Proof. reflexivity. Qed.

Lemma credentials_apply_session (p : obj) (s : Onyx.store) :
  credentialsOf (Onyx.apply (Session.merge_into Onyx.SESSION p) s) = credentialsOf s.
Proof. reflexivity. Qed.

Lemma merge_obj_remove (old patch : obj) (k : string) :
  patch !! k = Some VNull -> Onyx.merge_obj old patch !! k = None.
Proof. intros H. rewrite lookup_merge_obj, H. reflexivity. Qed.

Ltac store_step :=
  rewrite ?apply_all_cons, ?apply_all_nil;
  repeat first
    [ rewrite account_apply_account | rewrite account_apply_credentials
    | rewrite account_apply_session | rewrite credentials_apply_credentials
    | rewrite credentials_apply_account | rewrite credentials_apply_session ].

Ltac patch_lookup :=
  repeat (rewrite lookup_insert_ne by discriminate);
  first [apply lookup_insert_eq | apply lookup_singleton_eq | reflexivity].

Ltac sets_field := apply merge_obj_set; [patch_lookup | split; discriminate].

Ltac removes_field := apply merge_obj_remove; patch_lookup.

(** A command written with nothing else in flight, and then settled. *)
Lemma write_then_succeed (cmd : string) (ps : obj) (d : OnyxData) (w : World) :
  inflight w = [] ->
  onyx (exec (Session.API_settle Succeeds) (exec (Session.API_write cmd ps d) w))
  = Onyx.apply_all (successData d) (Onyx.apply_all (optimisticData d) (onyx w)).
Proof.
  intros H. unfold Session.API_settle, Session.API_write, exec, bind, emit, modify.
  cbn [fst snd inflight with_inflight with_onyx with_trace onyx]. rewrite H. reflexivity.
Qed.

Lemma write_then_fail (cmd : string) (ps : obj) (d : OnyxData) (w : World) :
  inflight w = [] ->
  onyx (exec (Session.API_settle Fails) (exec (Session.API_write cmd ps d) w))
  = Onyx.apply_all (failureData d) (Onyx.apply_all (optimisticData d) (onyx w)).
Proof.
  intros H. unfold Session.API_settle, Session.API_write, exec, bind, emit, modify.
  cbn [fst snd inflight with_inflight with_onyx with_trace onyx]. rewrite H. reflexivity.
Qed.

Lemma write_optimistic (cmd : string) (ps : obj) (d : OnyxData) (w : World) :
  onyx (exec (Session.API_write cmd ps d) w) = Onyx.apply_all (optimisticData d) (onyx w).
Proof. reflexivity. Qed.

(** ** The loading flags of the account *)

Section LoadingFlags.

Variable C : Constants.
Variable F : Forms.
Variable getMicroSecondOnyxError : string -> value.

Local Abbreviation patches := (Commands.patches C F getMicroSecondOnyxError).

(** X1. Whatever the store holds, a command whose optimistic patches set
    [isLoading] leaves it [false] once its success patches or its failure
    patches are applied, and a command whose optimistic patches set
    [loadingForm] leaves no [loadingForm] behind; [resendValidateCode] alone
    never writes [isLoading]. *)
Theorem settled_commands_clear_loading (c : Commands.Command) (s : Onyx.store) :
  let started := Onyx.apply_all (optimisticData (patches c)) s in
  let succeeded := Onyx.apply_all (successData (patches c)) started in
  let failed := Onyx.apply_all (failureData (patches c)) started in
  (if Commands.names_isLoading c
   then accountOf started !! "isLoading" = Some (VBool true)
        /\ accountOf succeeded !! "isLoading" = Some (VBool false)
        /\ accountOf failed !! "isLoading" = Some (VBool false)
   else accountOf started !! "isLoading" = accountOf s !! "isLoading"
        /\ accountOf succeeded !! "isLoading" = accountOf s !! "isLoading"
        /\ accountOf failed !! "isLoading" = accountOf s !! "isLoading")
  /\ (if Commands.names_loadingForm c
      then is_Some (accountOf started !! "loadingForm")
           /\ accountOf succeeded !! "loadingForm" = None
           /\ accountOf failed !! "loadingForm" = None
      else True).
Proof.
  intros started succeeded failed. subst succeeded failed started.
  destruct c; cbn [Commands.patches Commands.names_isLoading Commands.names_loadingForm
                   optimisticData successData failureData
                   Commands.resendValidationLink_data Commands.resendValidateCode_data
                   Commands.signInAttemptState Commands.signInWithShortLivedAuthToken_data
                   Commands.signIn_data Session.signInWithValidateCode_data
                   Commands.requestUnlinkValidationLink_data Commands.unlinkLogin_data
                   Commands.twoFactorAuth_data Commands.account];
    store_step; repeat split;
    first [ sets_field
          | removes_field
          | eexists; sets_field
          | apply merge_obj_frame; patch_lookup
          | rewrite !merge_obj_frame by patch_lookup; reflexivity ].
Qed.

End LoadingFlags.

(** ** Signing in with a validate code *)

Section SignIn.

Variable C : Constants.
Variable F : Forms.

Local Abbreviation signIn := (Commands.signIn C).

(** X2. [signIn validateCode twoFactorAuthCode] only asks for the device
    information.  The continuation that receives it writes [SigninUser] with
    the login and the validate code of the credentials as they are when it
    runs, not as they were at the call: a non-empty [validateCode] argument
    is sent as it is, an empty one is replaced by the stored code when a
    two-factor code is given, and without either no validate code is sent. *)
Theorem signIn_reads_credentials_late
    (validateCode deviceInfo : string) (twoFactorAuthCode : option string) (w w' : World) :
  let continuation := eval (signIn validateCode twoFactorAuthCode) w in
  calls (signIn validateCode twoFactorAuthCode) w = [DeviceGetDeviceInfoWithID]
  /\ exists ps,
       calls (continuation deviceInfo) w'
       = [ApiWrite "SigninUser" ps (Commands.signIn_data C validateCode twoFactorAuthCode)]
       /\ ps !! "email" = Some (field "login" (credentials w'))
       /\ ps !! "validateCode"
          = if decide (validateCode = "")
            then (if provided twoFactorAuthCode
                  then Some (field "validateCode" (credentials w')) else None)
            else Some (VStr validateCode).
Proof.
  intros continuation. split; [apply calls_app; reflexivity|].
  exists (Commands.signIn_params validateCode twoFactorAuthCode (credentials w')
            (preferredLocale w') deviceInfo).
  split; [apply calls_app; reflexivity|].
  unfold Commands.signIn_params. rewrite truthy_Some.
  destruct (decide (validateCode = "")) as [Hempty|Hcode]; cbn [orb].
  - destruct (provided twoFactorAuthCode); split; try patch_lookup; reflexivity.
  - split; patch_lookup.
Qed.

(** X3. With no other command in flight, the command written by [signIn]
    stores the [validateCode] argument in the credentials when it succeeds,
    also when that argument is the empty string, and clears the loading flags
    of the account; when it fails the stored credentials are what they were
    and the loading flags are cleared as well. *)
Theorem signIn_settles
    (validateCode deviceInfo : string) (twoFactorAuthCode : option string) (w w' : World) :
  inflight w' = [] ->
  let written := exec (eval (signIn validateCode twoFactorAuthCode) w deviceInfo) w' in
  let succeeded := onyx (exec (Session.API_settle Succeeds) written) in
  let failed := onyx (exec (Session.API_settle Fails) written) in
  accountOf (onyx written) !! "isLoading" = Some (VBool true)
  /\ credentialsOf (onyx written) = credentialsOf (onyx w')
  /\ credentialsOf succeeded !! "validateCode" = Some (VStr validateCode)
  /\ accountOf succeeded !! "isLoading" = Some (VBool false)
  /\ accountOf succeeded !! "loadingForm" = None
  /\ credentialsOf failed = credentialsOf (onyx w')
  /\ accountOf failed !! "isLoading" = Some (VBool false)
  /\ accountOf failed !! "loadingForm" = None.
Proof.
  intros Hnone written succeeded failed.
  assert (Hwritten : written
                     = exec (Session.API_write "SigninUser"
                               (Commands.signIn_params validateCode twoFactorAuthCode
                                  (credentials w') (preferredLocale w') deviceInfo)
                               (Commands.signIn_data C validateCode twoFactorAuthCode)) w')
    by reflexivity.
  subst succeeded failed. rewrite Hwritten.
  rewrite write_then_succeed, write_then_fail by exact Hnone. rewrite write_optimistic.
  cbn [Commands.signIn_data optimisticData successData failureData Commands.account].
  store_step. repeat split; first [sets_field | removes_field].
Qed.

End SignIn.

(** ** Unlinking a login *)

Section UnlinkLogin.

Variable C : Constants.

(** X4. With no other command in flight, [unlinkLogin] leaves the stored
    credentials alone when it is written and when it fails; only its success
    sets the stored login to the empty string, keeping every other field of
    the credentials. *)
Theorem unlinkLogin_clears_login_on_success
    (accountID : Z) (validateCode : string) (w : World) :
  inflight w = [] ->
  let written := exec (Commands.unlinkLogin C accountID validateCode) w in
  let succeeded := onyx (exec (Session.API_settle Succeeds) written) in
  let failed := onyx (exec (Session.API_settle Fails) written) in
  credentialsOf (onyx written) = credentialsOf (onyx w)
  /\ credentialsOf failed = credentialsOf (onyx w)
  /\ credentialsOf succeeded !! "login" = Some (VStr "")
  /\ forall k, k <> "login" -> credentialsOf succeeded !! k = credentialsOf (onyx w) !! k.
Proof.
  intros Hnone written succeeded failed. subst succeeded failed written.
  unfold Commands.unlinkLogin.
  rewrite write_then_succeed, write_then_fail by exact Hnone. rewrite write_optimistic.
  cbn [Commands.unlinkLogin_data optimisticData successData failureData Commands.account].
  store_step. repeat split; try sets_field.
  intros k Hk. apply merge_obj_frame. apply lookup_singleton_ne. congruence.
Qed.

End UnlinkLogin.

(** ** Starting a federated sign-in *)

Section BeginSignIn.

Variable C : Constants.
Variable F : Forms.
Variable getMicroSecondOnyxError : string -> value.

Hypothesis error_is_proper :
  proper (getMicroSecondOnyxError "loginForm.cannotGetAccountDetails").

(** X5. With no other command in flight, a sign-in started with Apple or
    with Google removes the stored validate code when its command succeeds
    and keeps every other field of the credentials; when the command fails
    the credentials are untouched and the account holds the
    cannot-get-account-details error; in both cases the loading flags are
    cleared. *)
Theorem federated_sign_in_settles (google : bool) (token : string) (w : World) :
  inflight w = [] ->
  let begin :=
    if google then Commands.beginGoogleSignIn C F getMicroSecondOnyxError token
    else Commands.beginAppleSignIn C F getMicroSecondOnyxError token in
  let succeeded := onyx (exec (Session.API_settle Succeeds) (exec begin w)) in
  let failed := onyx (exec (Session.API_settle Fails) (exec begin w)) in
  credentialsOf succeeded !! "validateCode" = None
  /\ (forall k, k <> "validateCode" ->
        credentialsOf succeeded !! k = credentialsOf (onyx w) !! k)
  /\ credentialsOf failed = credentialsOf (onyx w)
  /\ accountOf failed !! "errors"
     = Some (getMicroSecondOnyxError "loginForm.cannotGetAccountDetails")
  /\ accountOf succeeded !! "isLoading" = Some (VBool false)
  /\ accountOf failed !! "isLoading" = Some (VBool false)
  /\ accountOf succeeded !! "loadingForm" = None
  /\ accountOf failed !! "loadingForm" = None.
Proof.
  intros Hnone begin succeeded failed.
  assert (Hbegin : exists cmd ps,
             exec begin w
             = exec (Session.API_write cmd ps
                       (Commands.signInAttemptState C F getMicroSecondOnyxError)) w).
  { subst begin. destruct google; eexists; eexists; reflexivity. }
  destruct Hbegin as (cmd & ps & Hbegin). subst succeeded failed. rewrite Hbegin.
  rewrite write_then_succeed, write_then_fail by exact Hnone.
  cbn [Commands.signInAttemptState optimisticData successData failureData Commands.account].
  store_step. repeat split; try first [sets_field | removes_field].
  - intros k Hk. apply merge_obj_frame. apply lookup_singleton_ne. congruence.
  - apply merge_obj_set; [patch_lookup | exact error_is_proper].
Qed.

End BeginSignIn.

(** ** Clearing the messages of the account *)

(** X6. After [clearAccountMessages] the account holds no [errors] and no
    [message], [isLoading] is [false] and [success] is the empty string;
    every other field of the account, [loadingForm] among them, is what it
    was, and no other key of the store changes. *)
Theorem clearAccountMessages_keeps_other_fields (w : World) :
  let after := onyx (exec Commands.clearAccountMessages w) in
  accountOf after !! "errors" = None
  /\ accountOf after !! "message" = None
  /\ accountOf after !! "isLoading" = Some (VBool false)
  /\ accountOf after !! "success" = Some (VStr "")
  /\ (forall k, k <> "errors" -> k <> "message" -> k <> "isLoading" -> k <> "success" ->
        accountOf after !! k = accountOf (onyx w) !! k)
  /\ (forall key, key <> Onyx.ACCOUNT -> after key = onyx w key).
Proof.
  intros after. subst after. unfold Commands.clearAccountMessages.
  rewrite onyx_Onyx_merge.
  change (accountOf (Onyx.merge Onyx.ACCOUNT ?p ?s)) with (Onyx.merge_obj (accountOf s) p).
  repeat split; try first [sets_field | removes_field].
  - intros k H1 H2 H3 H4. apply merge_obj_frame.
    rewrite !lookup_insert_ne by congruence. apply lookup_singleton_ne. congruence.
  - intros key Hkey. unfold Onyx.merge, Onyx.write.
    destruct (decide (key = Onyx.ACCOUNT)); [contradiction | reflexivity].
Qed.

(** ** Invalidating the credentials *)

Section InvalidateCredentials.

Variable C : Constants.

Lemma signOut_calls (w : World) :
  calls (Session.signOut C) w
  = [LogInfo "Flushing logs before signing out";
     ApiWrite "LogOut" (logOutParams C w) noData;
     ClearCache; TimingClearData].
Proof. unfold Session.signOut, logOutParams. trace_calls. Qed.

(** X7. Once [invalidateCredentials] has run and the store has delivered
    the credentials to the subscription, the old auto-generated login is sent
    nowhere: the [LogOut] command of [signOut] carries the empty
    [partnerUserID], and [oldPartnerUserID] is empty for every email.  The
    stored login itself is kept. *)
Theorem invalidated_credentials_are_not_sent (w : World) :
  let w1 := exec deliverCredentials (exec Commands.invalidateCredentials w) in
  (exists ps,
     filter is_sign_out_call (calls (Session.signOut C) w1)
     = [ApiWrite "LogOut" ps noData; ClearCache; TimingClearData]
     /\ ps !! "partnerUserID" = Some (VStr ""))
  /\ (forall email, Commands.oldPartnerUserID (credentials w1) email = "")
  /\ credentials w1 !! "login" = credentialsOf (onyx w) !! "login".
Proof.
  intros w1.
  assert (Hcreds : credentials w1
                   = Onyx.merge_obj (credentialsOf (onyx w))
                       {[ "autoGeneratedLogin" := VStr "";
                          "autoGeneratedPassword" := VStr "" ]})
    by reflexivity.
  assert (Hlogin : str_field "autoGeneratedLogin" (credentials w1) = Some "").
  { unfold str_field. rewrite Hcreds.
    rewrite (merge_obj_set _ _ "autoGeneratedLogin" (VStr ""));
      [reflexivity | patch_lookup | split; discriminate]. }
  split; [|split].
  - exists (logOutParams C w1). split.
    + rewrite signOut_calls. reflexivity.
    + unfold logOutParams. rewrite Hlogin. patch_lookup.
  - intros email. unfold Commands.oldPartnerUserID. rewrite Hlogin.
    cbn [truthy String.eqb negb]. rewrite andb_false_r. reflexivity.
  - rewrite Hcreds. apply merge_obj_frame. patch_lookup.
Qed.

End InvalidateCredentials.

(** ** The life of a magic-link sign-in *)

Section MagicLink.

Variable C : Constants.
Variable F : Forms.


(** X9. [signInWithValidateCodeAndNavigate] asks for the device information
    and navigates home before any command is written: its two calls are these,
    the store is unchanged and nothing is in flight; what runs when the
    device information arrives is the continuation of
    [signInWithValidateCode] for the same arguments. *)
Theorem signInWithValidateCodeAndNavigate_navigates_first
    (accountID : Z) (code twoFactorAuthCode : string) (w : World) :
  let call := Commands.signInWithValidateCodeAndNavigate C F accountID code twoFactorAuthCode in
  calls call w = [DeviceGetDeviceInfoWithID; NavigationNavigate (HOME F)]
  /\ onyx (exec call w) = onyx w
  /\ inflight (exec call w) = inflight w
  /\ eval call w
     = eval (Session.signInWithValidateCode C accountID code twoFactorAuthCode) w.
Proof.
  intros call. split; [|repeat split].
  apply calls_app. subst call.
  unfold Commands.signInWithValidateCodeAndNavigate, Session.signInWithValidateCode,
    exec, bind, get, ret, emit, modify.
  cbn [fst snd trace with_trace]. rewrite <- app_assoc. reflexivity.
Qed.

End MagicLink.

(** ** initAutoAuthState on remount *)

(** X10. [initAutoAuthState] never stores [SIGNING_IN] or [FAILED], and it
    is idempotent on the store: called again with the state that it stored,
    it leaves the session as it is. *)
Theorem initAutoAuthState_idempotent (cached : AutoAuthState) (w : World) :
  let w1 := exec (Session.initAutoAuthState cached) w in
  exists stored,
    Onyx.session (onyx w1) !! "autoAuthState" = Some (VAuto stored)
    /\ (stored = JUST_SIGNED_IN \/ stored = NOT_STARTED)
    /\ Onyx.session (onyx (exec (Session.initAutoAuthState stored) w1))
       = Onyx.session (onyx w1).
Proof.
  intros w1.
  exists (if includes Session.signedInStates cached then JUST_SIGNED_IN else NOT_STARTED).
  assert (Hproper : forall a, proper (VAuto a)) by (intros a; split; discriminate).
  assert (Hw1 : forall a v,
             Onyx.session (onyx (exec (Session.initAutoAuthState a) v))
             = <["autoAuthState" :=
                   VAuto (if includes Session.signedInStates a
                          then JUST_SIGNED_IN else NOT_STARTED)]> (Onyx.session (onyx v))).
  { intros a v. unfold Session.initAutoAuthState. rewrite onyx_Onyx_merge.
    apply session_merge. apply Hproper. }
  split; [|split].
  - subst w1. rewrite Hw1. apply lookup_insert_eq.
  - destruct cached; [right | left | left | right]; reflexivity.
  - rewrite Hw1. subst w1. rewrite Hw1.
    rewrite insert_insert_eq. destruct cached; reflexivity.
Qed.

(** ** Redirecting to the sign-in page *)

Section Redirect.

Variable C : Constants.
Variable getReportIDFromLink : option string -> string.
Context {TCallback : Type}.

(** X11. An anonymous user is never signed out.  In a world whose session
    is that of an anonymous account, [signOutAndRedirectToSignIn] writes no
    command, clears nothing and does not redirect; the call itself leaves the
    store and the commands in flight as they are, and apart from the log and
    the context menu it opens the sign-in modal and asks for the initial URL,
    unless the modal is the active route already: then it does neither.  The
    continuation that runs when the initial URL arrives, in whatever world
    that is, makes no sign-out call either and leaves the commands in flight
    as they are; it makes one call, a merge of the report identifier of the
    link under the key of the last opened public room, when that identifier
    is not empty, and no call when it is empty; every other key of the store
    keeps its value.  The function that [checkIfActionIsAllowed] returns for
    an action that is not allowed to anonymous users is this one. *)
Theorem anonymous_user_is_not_signed_out
    (fn : TCallback) (w w' : World) (url : option string) :
  sessionAuthTokenType w = Some "anonymousAccount" ->
  let redirect := Session.signOutAndRedirectToSignIn C in
  let arrived := Session.signOutAndRedirectToSignIn_initialURL getReportIDFromLink url in
  let reportID := getReportIDFromLink url in
  eval (Session.checkIfActionIsAllowed C fn false) w = inr (fun _ => redirect)
  /\ filter is_sign_out_call (calls redirect w) = []
  /\ onyx (exec redirect w) = onyx w
  /\ inflight (exec redirect w) = inflight w
  /\ calls redirect w
     = [LogInfo "Redirecting to Sign In because signOut() was called";
        HideContextMenu false]
       ++ (if String.eqb (activeRoute w) (SIGN_IN_MODAL C) then []
           else [NavigationNavigate (SIGN_IN_MODAL C); LinkingGetInitialURL])
  /\ calls arrived w'
     = (if String.eqb reportID "" then []
        else [OnyxMergeValue Onyx.LAST_OPENED_PUBLIC_ROOM_ID (VStr reportID)])
  /\ onyx (exec arrived w') Onyx.LAST_OPENED_PUBLIC_ROOM_ID
     = (if String.eqb reportID "" then onyx w' Onyx.LAST_OPENED_PUBLIC_ROOM_ID
        else Some (Onyx.EVal (VStr reportID)))
  /\ (forall k, k <> Onyx.LAST_OPENED_PUBLIC_ROOM_ID ->
        onyx (exec arrived w') k = onyx w' k)
  /\ inflight (exec arrived w') = inflight w'.
Proof.
  intros Hanonymous redirect arrived reportID.
  assert (Hb : bool_decide (sessionAuthTokenType w = Some "anonymousAccount") = true)
    by (apply bool_decide_eq_true; exact Hanonymous).
  assert (Hcalls : calls redirect w
                   = [LogInfo "Redirecting to Sign In because signOut() was called";
                      HideContextMenu false]
                     ++ (if String.eqb (activeRoute w) (SIGN_IN_MODAL C) then []
                         else [NavigationNavigate (SIGN_IN_MODAL C);
                               LinkingGetInitialURL])).
  { apply calls_app. subst redirect.
    unfold Session.signOutAndRedirectToSignIn, Session.isAnonymousUser,
      exec, bind, get, ret, emit, modify.
    cbn [fst snd sessionAuthTokenType activeRoute trace with_trace]. rewrite Hb.
    cbn [negb fst snd activeRoute trace with_trace]. destruct (String.eqb (activeRoute w) (SIGN_IN_MODAL C));
      cbn [fst snd trace with_trace]; rewrite <- ?app_assoc; reflexivity. }
  assert (Harrived : arrived
                     = if String.eqb reportID "" then ret tt
                       else Session.Onyx_merge_value Onyx.LAST_OPENED_PUBLIC_ROOM_ID
                              (VStr reportID)).
  { subst arrived. unfold Session.signOutAndRedirectToSignIn_initialURL.
    fold reportID. cbn [truthy]. destruct (String.eqb reportID ""); reflexivity. }
  split; [|split; [|split; [|split; [|split; [exact Hcalls|]]]]].
  - unfold Session.checkIfActionIsAllowed, Session.isAnonymousUser, eval, bind, get, ret.
    cbn [fst snd]. rewrite Hb. reflexivity.
  - rewrite Hcalls. destruct (String.eqb _ _); reflexivity.
  - subst redirect.
    unfold Session.signOutAndRedirectToSignIn, Session.isAnonymousUser,
      exec, bind, get, ret, emit, modify.
    cbn [fst snd sessionAuthTokenType activeRoute with_trace]. rewrite Hb.
    cbn [negb fst snd activeRoute with_trace]. destruct (String.eqb (activeRoute w) (SIGN_IN_MODAL C)); reflexivity.
  - subst redirect.
    unfold Session.signOutAndRedirectToSignIn, Session.isAnonymousUser,
      exec, bind, get, ret, emit, modify.
    cbn [fst snd sessionAuthTokenType activeRoute with_trace]. rewrite Hb.
    cbn [negb fst snd activeRoute with_trace]. destruct (String.eqb (activeRoute w) (SIGN_IN_MODAL C)); reflexivity.
  - rewrite Harrived. destruct (String.eqb reportID "").
    + repeat split. unfold calls, exec, ret. cbn [snd]. apply drop_all.
    + split; [trace_calls|]. split; [|split]; [| |reflexivity].
      * unfold Session.Onyx_merge_value, exec, bind, emit, modify, Onyx.write.
        cbn [fst snd onyx with_onyx with_trace].
        destruct (decide _); [reflexivity | contradiction].
      * intros k Hk.
        unfold Session.Onyx_merge_value, exec, bind, emit, modify, Onyx.write.
        cbn [fst snd onyx with_onyx with_trace].
        destruct (decide _); [contradiction | reflexivity].
Qed.

(** X12. For a user who is not anonymous, [signOutAndRedirectToSignIn]
    makes the four calls of [signOut] between hiding the context menu and
    redirecting to the sign-in page, whatever the active route is, and it
    never opens the sign-in modal. *)
Theorem signed_in_user_is_signed_out_then_redirected (w : World) :
  sessionAuthTokenType w <> Some "anonymousAccount" ->
  calls (Session.signOutAndRedirectToSignIn C) w
  = [LogInfo "Redirecting to Sign In because signOut() was called";
     HideContextMenu false;
     LogInfo "Flushing logs before signing out";
     ApiWrite "LogOut" (logOutParams C w) noData;
     ClearCache;
     TimingClearData;
     RedirectToSignIn].
Proof.
  intros Hsigned.
  assert (Hb : bool_decide (sessionAuthTokenType w = Some "anonymousAccount") = false)
    by (apply bool_decide_eq_false; exact Hsigned).
  apply calls_app.
  unfold Session.signOutAndRedirectToSignIn, Session.isAnonymousUser, Session.signOut,
    Session.API_write, logOutParams, exec, bind, get, ret, emit, modify.
  cbn [fst snd sessionAuthTokenType activeRoute trace with_trace with_inflight with_onyx
       networkAuthToken credentials].
  rewrite Hb. cbn [negb fst snd trace with_trace with_inflight with_onyx
                   networkAuthToken credentials].
  rewrite <- !app_assoc. reflexivity.
Qed.

End Redirect.

(** ** The session subscription *)

Lemma sessionCallback_type (session : option obj) (w : World) :
  sessionAuthTokenType (exec (Session.sessionCallback session) w)
  = session ≫= str_field "authTokenType".
Proof.
  unfold Session.sessionCallback, exec, bind, get, modify, ret, Session.resolve.
  cbn. destruct (authPromiseResolver w); [|reflexivity].
  destruct (truthy _); reflexivity.
Qed.

(** X13. After the subscription has been called with a session, the user
    counts as anonymous exactly when that session exists and its
    [authTokenType] is the string [anonymousAccount]; a missing session, or
    one without that field, makes the user not anonymous, whatever was
    observed before.  The callback writes nothing to the store and calls no
    collaborator. *)
Theorem isAnonymousUser_follows_session (session : option obj) (w : World) :
  let w1 := exec (Session.sessionCallback session) w in
  (eval Session.isAnonymousUser w1 = true
   <-> exists o, session = Some o /\ o !! "authTokenType" = Some (VStr "anonymousAccount"))
  /\ onyx w1 = onyx w
  /\ trace w1 = trace w.
Proof.
  intros w1. split; [|split].
  - unfold Session.isAnonymousUser, eval, get. cbn [fst]. subst w1.
    rewrite sessionCallback_type, bool_decide_eq_true.
    destruct session as [o|]; cbn [mbind option_bind].
    + unfold str_field. split.
      * intros H. exists o. split; [reflexivity|].
        destruct (o !! "authTokenType") as [[| | | |s|]|]; try discriminate.
        congruence.
      * intros (o' & [= <-] & ->). reflexivity.
    + split; [discriminate|]. intros (o & Ho & _). discriminate.
  - subst w1.
    unfold Session.sessionCallback, exec, bind, get, modify, ret, Session.resolve.
    cbn. destruct (authPromiseResolver w); [|reflexivity].
    destruct (truthy _); reflexivity.
  - subst w1.
    unfold Session.sessionCallback, exec, bind, get, modify, ret, Session.resolve.
    cbn. destruct (authPromiseResolver w); [|reflexivity].
    destruct (truthy _); reflexivity.
Qed.

(** ** The waiter over arbitrary runs *)

Lemma settle_consistent (p : nat) (ps : list Promise) :
  Forall (fun x => x = Pending \/ x = Fulfilled true) ps ->
  Forall (fun x => x = Pending \/ x = Fulfilled true)
    (Session.settle p (Fulfilled true) ps).
Proof.
  intros H. unfold Session.settle.
  destruct (ps !! p) as [[| |]|]; try exact H.
  apply Forall_insert; [exact H | right; reflexivity].
Qed.

Lemma signInStep_consistent (s : SignInStep) (w : World) :
  waiter_consistent w -> waiter_consistent (exec (signInStep s) w).
Proof.
  intros [Hres Hall]. destruct s as [|session]; unfold waiter_consistent.
  - rewrite signInStep_wait, waitForUserSignIn_promises, waitForUserSignIn_resolver.
    split.
    + intros p Hp. destruct (truthy (sessionAuthToken w)).
      * rewrite lookup_app_l; [apply Hres; exact Hp|].
        eapply lookup_lt_Some. apply Hres. exact Hp.
      * injection Hp as <-. rewrite lookup_app_r by lia.
        rewrite Nat.sub_diag. reflexivity.
    + apply Forall_app. split; [exact Hall|].
      constructor; [|constructor]. destruct (truthy _); [right | left]; reflexivity.
  - cbn [signInStep]. rewrite sessionCallback_promises, sessionCallback_resolver.
    destruct (has_token session).
    + split; [discriminate|].
      destruct (authPromiseResolver w); [apply settle_consistent|]; exact Hall.
    + split; [|destruct (authPromiseResolver w); exact Hall].
      intros p Hp. rewrite Hp. apply Hres. exact Hp.
Qed.

(** X14. Over every run of calls of [waitForUserSignIn] and of session
    changes, the waiter stays consistent: the registered resolver, if there
    is one, belongs to a promise that is still pending, and every promise is
    pending or fulfilled with [true]; so no promise is ever fulfilled with
    [false] and no resolver of a settled promise stays registered. *)
Theorem waiter_stays_consistent (steps : list SignInStep) (w : World) :
  waiter_consistent w -> waiter_consistent (exec (signInRun steps) w).
Proof.
  revert w. induction steps as [|s steps IH]; intros w H.
  - exact H.
  - rewrite signInRun_cons. apply IH. apply signInStep_consistent. exact H.
Qed.

(** X15. Whether a call of [waitForUserSignIn] waits is decided by the last
    session that the subscription has seen: right after a session with a
    truthy token the new promise is fulfilled with [true] and no resolver is
    registered; right after a session without one (a missing session
    included) the new promise is pending and its resolver is the registered
    one. *)
Theorem waitForUserSignIn_after_session (session : option obj) (w : World) :
  let w1 := exec (Session.sessionCallback session) w in
  let p := eval Session.waitForUserSignIn w1 in
  let w2 := exec Session.waitForUserSignIn w1 in
  promises w2 !! p = Some (if has_token session then Fulfilled true else Pending)
  /\ authPromiseResolver w2 = if has_token session then None else Some p.
Proof.
  intros w1 p w2.
  assert (Htoken : truthy (sessionAuthToken w1) = has_token session).
  { subst w1. rewrite sessionCallback_token. reflexivity. }
  assert (Hp : p = length (promises w1)) by apply waitForUserSignIn_eval.
  subst w2. rewrite waitForUserSignIn_promises, waitForUserSignIn_resolver, Htoken.
  split.
  - rewrite Hp, lookup_app_r by lia. rewrite Nat.sub_diag. reflexivity.
  - destruct (has_token session) eqn:Hs; [|rewrite Hp; reflexivity].
    subst w1. rewrite sessionCallback_resolver, Hs. reflexivity.
Qed.

(** ** Authorizing a channel leaves the rest alone *)

Section AuthorizationFrame.

Variable C : Constants.

(** X16. However the authorization request of [authenticatePusher] ends,
    and whether the callback returns or throws, issuing the request and
    handling its result make one call into the command client, the
    [AuthenticatePusher] request with side effects that is issued before
    anything is handled, and neither writes to the store or touches the
    promises and the resolver of [waitForUserSignIn]. *)
Theorem authenticatePusher_touches_no_state
    (socketID channelName : string) (callback : Session.Callback) (w : World)
    (r : Session.RequestResult) :
  let request := Session.authenticatePusher C socketID channelName callback in
  let w1 := exec request w in
  let handler := eval request w r in
  let w2 := exec handler w1 in
  filter is_api_call (calls request w)
  = [ApiMakeRequestWithSideEffects "AuthenticatePusher"
       {[ "socket_id" := VStr socketID; "channel_name" := VStr channelName;
          "shouldRetry" := VBool false; "forceNetworkRequest" := VBool true ]}]
  /\ filter is_api_call (calls handler w1) = []
  /\ onyx w2 = onyx w
  /\ promises w2 = promises w
  /\ authPromiseResolver w2 = authPromiseResolver w.
Proof.
  intros request w1 handler w2.
  split.
  { subst request. rewrite authenticatePusher_issues_request. reflexivity. }
  assert (Hhandler : forall v,
             filter is_api_call (calls handler v) = []
             /\ onyx (exec handler v) = onyx v
             /\ promises (exec handler v) = promises v
             /\ authPromiseResolver (exec handler v) = authPromiseResolver v).
  { intros v. subst handler request.
    unfold Session.authenticatePusher, calls, eval, exec, bind, ret, emit, modify.
    cbn [fst snd]. destruct r as [response|error].
    - unfold Session.authenticatePusher_then, Session.authenticatePusher_catch,
        Session.invoke, Session.reauthenticatePusher, Session.throttled,
        Session.reauthenticatePusher_body, bind, get, ret, emit, modify.
      destruct (bool_decide _); [|destruct (negb _)]; cbn [fst snd];
        destruct (Session.callbackThrows callback _ _) as [thrown|]; cbn [fst snd];
        try destruct (Lodash.step _ _ _ _) as [[|] s1];
        cbn [fst snd trace with_trace with_reauthThrottle onyx promises
             authPromiseResolver];
        rewrite <- ?app_assoc, drop_app_length; repeat split; reflexivity.
    - unfold Session.authenticatePusher_catch, Session.invoke, bind, ret, emit, modify.
      cbn [fst snd trace with_trace onyx promises authPromiseResolver].
      rewrite <- ?app_assoc, drop_app_length. repeat split; reflexivity. }
  destruct (Hhandler w1) as (Hcalls & Honyx & Hpromises & Hresolver).
  subst w2. rewrite Honyx, Hpromises, Hresolver. repeat split; [exact Hcalls|..]; reflexivity.
Qed.

End AuthorizationFrame.

(** ** The spacing of re-authentications *)

Lemma step_called (li lo : Z) (a : Lodash.action) (s : Lodash.state) :
  called li lo s ->
  lo <= action_time a ->
  let result :=
    Lodash.step Session.reauthenticateWait Session.reauthenticateOptions a s in
  if fst result
  then li + Session.reauthenticateWait <= action_time a
       /\ called (action_time a) (action_time a) (snd result)
  else called li (action_time a) (snd result).
Proof.
  intros (Hinv & lc & Hlc & Hrange) Ht.
  unfold Session.reauthenticateOptions, Session.reauthenticateWait in *.
  destruct a as [t|t]; cbn [Lodash.step action_time] in *.
  - unfold Lodash.debounced, Lodash.shouldInvoke, Lodash.leadingEdge, Lodash.invokeFunc.
    rewrite Hlc, Hinv. cbn. rewrite ?Z.max_id.
    replace (t - lc <? 0) with false by lia.
    destruct (5000 <=? t - li) eqn:Hgap.
    + rewrite !orb_true_r. apply Z.leb_le in Hgap.
      destruct (Lodash.timerId s); cbn; (split; [lia|]); unfold called; cbn;
        (split; [reflexivity|]); exists t; (split; [reflexivity | lia]).
    + apply Z.leb_gt in Hgap. replace (5000 <=? t - lc) with false by lia.
      cbn. destruct (Lodash.timerId s); cbn; unfold called; cbn;
        (split; [reflexivity|]); exists t; (split; [reflexivity | lia]).
  - destruct (Lodash.timerId s) as [due|];
      [destruct (due <=? t)|]; cbn;
      try (split; [exact Hinv|]; exists lc; split; [exact Hlc | lia]).
    unfold Lodash.timerExpired, Lodash.trailingEdge.
    destruct (Lodash.shouldInvoke _ _ _ _); cbn; unfold called; cbn;
      (split; [exact Hinv|]); exists lc; (split; [exact Hlc | lia]).
Qed.

Lemma last_default (x : Z) (l : list Z) (d d' : Z) :
  List.last (x :: l) d = List.last (x :: l) d'.
Proof.
  revert x. induction l as [|y l IH]; intros x; [reflexivity|].
  change (List.last (x :: y :: l) d) with (List.last (y :: l) d).
  change (List.last (x :: y :: l) d') with (List.last (y :: l) d').
  apply IH.
Qed.

Lemma run_called (acts : list Lodash.action) :
  forall li lo s,
    called li lo s ->
    ordered lo acts = true ->
    let times :=
      execution_times Session.reauthenticateWait Session.reauthenticateOptions acts s in
    spaced Session.reauthenticateWait li times
    /\ Lodash.lastInvokeTime
         (snd (Lodash.executions Session.reauthenticateWait
                 Session.reauthenticateOptions acts s))
       = List.last times li.
Proof.
  induction acts as [|a acts IH]; intros li lo s Hs Hord.
  - split; [exact I | apply Hs].
  - cbn [ordered] in Hord. apply andb_prop in Hord as [Hlo Hrest].
    apply Z.leb_le in Hlo.
    pose proof (step_called li lo a s Hs Hlo) as Hstep. cbn zeta in Hstep.
    cbn [execution_times Lodash.executions].
    destruct (Lodash.step _ _ a s) as [fired s1]. cbn [fst snd] in Hstep.
    destruct fired.
    + destruct Hstep as [Hgap Hnext].
      destruct (IH _ _ _ Hnext Hrest) as [Hspaced Hlast].
      destruct (Lodash.executions _ _ acts s1) as [n s2]. cbn [fst snd] in *.
      split; [split; assumption|].
      rewrite Hlast.
      destruct (execution_times _ _ acts s1) as [|x l]; [reflexivity|].
      change (List.last (action_time a :: x :: l) li) with (List.last (x :: l) li).
      apply last_default.
    + destruct (IH _ _ _ Hstep Hrest) as [Hspaced Hlast].
      destruct (Lodash.executions _ _ acts s1) as [n s2]. cbn [fst snd] in *.
      split; assumption.
Qed.

Lemma execution_times_app (wait : Z) (opts : Lodash.options) (l1 l2 : list Lodash.action) :
  forall s,
    execution_times wait opts (l1 ++ l2) s
    = execution_times wait opts l1 s
      ++ execution_times wait opts l2 (snd (Lodash.executions wait opts l1 s)).
Proof.
  induction l1 as [|a l1 IH]; intros s; cbn [execution_times Lodash.executions app].
  - reflexivity.
  - destruct (Lodash.step wait opts a s) as [fired s1]. rewrite IH.
    destruct (Lodash.executions wait opts l1 s1) as [n s2].
    destruct fired; reflexivity.
Qed.

Lemma first_call_state (t0 : Z) :
  called t0 t0
    (snd (Lodash.debounced Session.reauthenticateWait Session.reauthenticateOptions t0
            Lodash.init)).
Proof. split; [reflexivity|]. exists t0. split; [reflexivity | lia]. Qed.

(** X17. From the loading of the module on, with the calls and timer
    expiries of [reauthenticatePusher] happening in order: the first call
    executes the body, and any two consecutive executions of the body are at
    least 5000 milliseconds apart. *)
Theorem reauthentications_are_spaced (t0 : Z) (acts : list Lodash.action) :
  ordered t0 acts = true ->
  exists later,
    execution_times Session.reauthenticateWait Session.reauthenticateOptions
      (Lodash.Call t0 :: acts) Lodash.init
    = t0 :: later
    /\ spaced 5000 t0 later.
Proof.
  intros Hord.
  exists (execution_times Session.reauthenticateWait Session.reauthenticateOptions acts
            (snd (Lodash.debounced Session.reauthenticateWait
                    Session.reauthenticateOptions t0 Lodash.init))).
  split; [reflexivity|].
  apply (run_called acts t0 t0 _ (first_call_state t0) Hord).
Qed.

(** X18. The throttle does not starve: after any run that began with a call
    and happened in order, a call made 5000 milliseconds or more after the
    last execution of the body executes it again. *)
Theorem reauthentication_resumes (t0 t : Z) (acts : list Lodash.action) :
  ordered t0 acts = true ->
  let run := Lodash.Call t0 :: acts in
  let times :=
    execution_times Session.reauthenticateWait Session.reauthenticateOptions run
      Lodash.init in
  List.last times t0 + 5000 <= t ->
  execution_times Session.reauthenticateWait Session.reauthenticateOptions
    (run ++ [Lodash.Call t]) Lodash.init
  = times ++ [t].
Proof.
  intros Hord run times Hlate. subst times run.
  rewrite execution_times_app. f_equal.
  change (Lodash.Call t0 :: acts) with ([Lodash.Call t0] ++ acts) in *.
  rewrite executions_app. rewrite execution_times_app in Hlate.
  cbn [Lodash.executions Lodash.step app execution_times] in *.
  pose proof (first_call_state t0) as Hfirst.
  destruct (Lodash.debounced _ _ t0 Lodash.init) as [fired s1] eqn:Hd.
  assert (Hfired : fired = true) by (injection Hd as <- _; reflexivity).
  subst fired. cbn [fst snd app] in *.
  destruct (run_called acts t0 t0 s1 Hfirst Hord) as [_ Hlast]. cbn zeta in Hlast.
  destruct (Lodash.executions _ _ acts s1) as [n s2]. cbn [fst snd] in *.
  assert (Hli : Lodash.lastInvokeTime s2 + 5000 <= t).
  { rewrite Hlast.
    destruct (execution_times _ _ acts s1) as [|x l]; [exact Hlate|].
    cbn [app] in Hlate.
    change (List.last (t0 :: x :: l) t0) with (List.last (x :: l) t0) in Hlate.
    exact Hlate. }
  cbn [execution_times Lodash.step action_time].
  unfold Lodash.debounced, Lodash.shouldInvoke, Lodash.leadingEdge, Lodash.invokeFunc.
  unfold Session.reauthenticateOptions, Session.reauthenticateWait. cbn.
  rewrite ?Z.max_id.
  replace (5000 <=? t - Lodash.lastInvokeTime s2) with true by lia.
  destruct (Lodash.lastCallTime s2), (Lodash.timerId s2); rewrite ?orb_true_r;
    reflexivity.
Qed.

(** ** Routes of reports *)

(** The first occurrence is the one that is replaced: an identifier whose
    first character does not occur before it is replaced where it stands. *)
Lemma replace_after_prefix (pre rest post rep : string) (c : ascii) :
  c ∉ chars pre ->
  replace (pre ++ String c rest ++ post)%string (String c rest) rep
  = (pre ++ rep ++ post)%string.
Proof.
  induction pre as [|d pre IH]; intros Hc.
  - rewrite !append_empty.
    assert (Hstep : forall route,
               String.prefix (String c rest) route = true ->
               replace route (String c rest) rep
               = (rep ++ slice (String.length (String c rest)) route)%string).
    { intros route Hp. destruct route; cbn [replace]; rewrite Hp; reflexivity. }
    rewrite Hstep by apply prefix_append. rewrite slice_append. reflexivity.
  - cbn [chars] in Hc. apply not_elem_of_cons in Hc as [Hne Hc].
    assert (Hskip : forall route,
               replace (String d route) (String c rest) rep
               = String d (replace route (String c rest) rep)).
    { intros route. cbn [replace String.prefix].
      destruct (ascii_dec c d) as [Heq|_]; [contradiction | reflexivity]. }
    rewrite !(append_cons d pre), Hskip, (IH Hc). reflexivity.
Qed.

Section ReportRoutes.

Variable C : Constants.
Variable getReportIDFromLink : option string -> string.
Variable parseReportRouteParams : string -> option string.

(** X19. A route made from an allowed template by putting an identifier in
    the place of [:reportID], with or without a [/] in front, is open to
    anonymous users, provided that the parser finds that identifier in the
    route, that the first character of the identifier is not [/] and does not
    occur in the part of the template before the placeholder, and that this
    part does not begin with [/]. *)
Theorem instantiated_template_is_open
    (slash : bool) (pre rest post : string) (c : ascii) :
  let id := String c rest in
  let route := ((if slash then "/" else "") ++ pre ++ id ++ post)%string in
  parseReportRouteParams route = Some id ->
  c ∉ chars pre ->
  c <> "/"%char ->
  startsWith pre "/" = false ->
  (pre ++ ":reportID" ++ post)%string ∈ Session.routesCanAccessByAnonymousUser C ->
  Session.canAccessRouteByAnonymousUser C getReportIDFromLink parseReportRouteParams route
  = true.
Proof.
  intros id route Hparse Hc Hslash Hpre Hin.
  assert (Hnormal : Session.routeRemovedReportId parseReportRouteParams route
                    = (pre ++ ":reportID" ++ post)%string).
  { unfold Session.routeRemovedReportId. rewrite Hparse.
    cbn [truthy nullish]. subst id. cbn [String.eqb negb].
    subst route. destruct slash.
    - change ("/" ++ pre ++ String c rest ++ post)%string
        with (String "/" pre ++ String c rest ++ post)%string.
      rewrite replace_after_prefix.
      + rewrite !(append_cons "/" pre). unfold startsWith. cbn [String.prefix].
        destruct (ascii_dec "/" "/"); [|contradiction].
        rewrite prefix_nil. reflexivity.
      + cbn [chars]. apply not_elem_of_cons. split; assumption.
    - rewrite append_empty, replace_after_prefix by exact Hc.
      assert (Hstart : startsWith (pre ++ String c rest ++ post)%string "/" = false).
      { unfold startsWith in *. destruct pre as [|d pre].
        - rewrite append_empty, append_cons. cbn [String.prefix].
          destruct (ascii_dec "/" c) as [Heq|_]; [congruence | reflexivity].
        - rewrite append_cons. cbn [String.prefix] in *.
          destruct (ascii_dec "/" d); [|reflexivity].
          rewrite prefix_nil in Hpre. discriminate. }
      rewrite Hstart. reflexivity. }
  unfold Session.canAccessRouteByAnonymousUser. rewrite Hnormal.
  destruct (truthy _); [reflexivity|].
  apply includes_elem_of in Hin. rewrite Hin. reflexivity.
Qed.

End ReportRoutes.

(** ** Forms that pass the validation *)

Section ValidateMore.

Variable SSN_LAST_4 : string.
Variable isValidSSNLastFour : string -> bool.
Variable isRequiredFulfilled : option string -> bool.
Variable fieldRequired : string.

Local Abbreviation validate :=
  (SocialSecurityNumber.validate SSN_LAST_4 isValidSSNLastFour isRequiredFulfilled
     fieldRequired).

Lemma format_check_spec (values : gmap string string) :
  truthy (values !! "ssn") && negb (isValidSSNLastFour (nullish (values !! "ssn") ""))
  = false
  <-> forall ssn, values !! "ssn" = Some ssn -> ssn <> "" -> isValidSSNLastFour ssn = true.
Proof.
  destruct (values !! "ssn") as [ssn|]; cbn [truthy nullish].
  - destruct (String.eqb_spec ssn "") as [->|Hne]; cbn [negb andb].
    + split; [|reflexivity]. intros _ s [= <-] Hs. contradiction.
    + destruct (isValidSSNLastFour ssn) eqn:Hvalid; cbn [negb].
      * split; [|reflexivity]. intros _ s [= <-] _. exact Hvalid.
      * split; [discriminate|]. intros H. rewrite (H ssn eq_refl Hne) in Hvalid.
        discriminate.
  - split; [|reflexivity]. intros _ s Hs. discriminate.
Qed.

(** X20. Whatever the name of the step's input, [validate] returns no
    error at all exactly when the value of the input fulfils the requirement
    and the record's [ssn] is missing, empty or a valid last-four number. *)
Theorem validate_accepts_iff (values : gmap string string) :
  validate values = ∅
  <-> isRequiredFulfilled (values !! SSN_LAST_4) = true
      /\ forall ssn, values !! "ssn" = Some ssn -> ssn <> "" ->
           isValidSSNLastFour ssn = true.
Proof.
  rewrite <- format_check_spec. unfold SocialSecurityNumber.validate.
  rewrite getFieldRequiredErrors_step.
  destruct (truthy _ && negb _).
  - split; [intros H; apply insert_non_empty in H; contradiction|].
    intros [_ H]. discriminate.
  - destruct (isRequiredFulfilled _).
    + split; [intros _; split; reflexivity | reflexivity].
    + split; [intros H; apply map_non_empty_singleton in H; contradiction|].
      intros [H _]. discriminate.
Qed.

End ValidateMore.

Section ValidateSameName.

Variable isValidSSNLastFour : string -> bool.
Variable isRequiredFulfilled : option string -> bool.
Variable fieldRequired : string.

(** X21. When the step's input is itself named [ssn], a value that is
    non-empty and not a valid last-four number gets the format error alone:
    the assignment of [bankAccount.error.ssnLast4] replaces a required-field
    error for the same field, whether or not the value fulfils the
    requirement. *)
Theorem validate_format_error_wins (values : gmap string string) (ssn : string) :
  values !! "ssn" = Some ssn ->
  ssn <> "" ->
  isValidSSNLastFour ssn = false ->
  SocialSecurityNumber.validate "ssn" isValidSSNLastFour isRequiredFulfilled fieldRequired
    values
  = {[ "ssn" := "bankAccount.error.ssnLast4" ]}.
Proof.
  intros Hv Hne Hinvalid. unfold SocialSecurityNumber.validate.
  rewrite getFieldRequiredErrors_step, Hv. cbn [truthy nullish].
  destruct (String.eqb_spec ssn "") as [Heq|_]; [contradiction|].
  rewrite Hinvalid. cbn [negb andb].
  destruct (isRequiredFulfilled _); [apply insert_empty | apply insert_singleton_eq].
Qed.

End ValidateSameName.

(** * Evaluations of the further definitions *)

(** With a two-factor code and no code of its own, [signIn] sends the code
    that the credentials hold when the device information arrives. *)
Example signIn_sends_stored_code :
  let later := with_credentials {[ "login" := VStr "a@b.c"; "validateCode" := VStr "999999" ]}
                 initialWorld in
  calls (eval (Commands.signIn sampleConstants "" (Some "123456")) initialWorld "device")
    later
  = [ApiWrite "SigninUser"
       {[ "twoFactorAuthCode" := VStr "123456"; "email" := VStr "a@b.c";
          "preferredLocale" := VNull; "deviceInfo" := VStr "device";
          "validateCode" := VStr "999999" ]}
       (Commands.signIn_data sampleConstants "" (Some "123456"))].
Proof. vm_compute. reflexivity. Qed.

Example oldPartnerUserID_needs_same_login :
  Commands.oldPartnerUserID
    {[ "login" := VStr "a@b.c"; "autoGeneratedLogin" := VStr "auto" ]} "a@b.c" = "auto"
  /\ Commands.oldPartnerUserID
       {[ "login" := VStr "a@b.c"; "autoGeneratedLogin" := VStr "auto" ]} "x@y.z" = "".
Proof. split; vm_compute; reflexivity. Qed.

Example toggleTwoFactorAuth_commands :
  calls (Commands.toggleTwoFactorAuth true) initialWorld
  = [ApiWrite "EnableTwoFactorAuth" ∅ Commands.twoFactorAuth_data]
  /\ calls (Commands.toggleTwoFactorAuth false) initialWorld
     = [ApiWrite "DisableTwoFactorAuth" ∅ Commands.twoFactorAuth_data].
Proof. split; reflexivity. Qed.

(** * Instances of the further properties *)

Lemma signIn_settles_witness :
  credentialsOf
    (onyx (exec (Session.API_settle Succeeds)
             (exec (eval (Commands.signIn sampleConstants "" (Some "123456")) initialWorld
                      "device")
                initialWorld)))
    !! "validateCode" = Some (VStr "").
Proof.
  assert (Hnone : inflight initialWorld = []) by reflexivity.
  destruct (signIn_settles sampleConstants "" "device" (Some "123456")
              initialWorld initialWorld Hnone) as (_ & _ & H & _).
  exact H.
Defined.

Lemma unlinkLogin_clears_login_on_success_witness :
  credentialsOf
    (onyx (exec (Session.API_settle Succeeds)
             (exec (Commands.unlinkLogin sampleConstants 7 "123456") initialWorld)))
    !! "login" = Some (VStr "")
  /\ credentialsOf
       (onyx (exec (Session.API_settle Succeeds)
                (exec (Commands.unlinkLogin sampleConstants 7 "123456") initialWorld)))
       !! "validateCode"
     = credentialsOf (onyx initialWorld) !! "validateCode".
Proof.
  assert (Hnone : inflight initialWorld = []) by reflexivity.
  destruct (unlinkLogin_clears_login_on_success sampleConstants 7 "123456"
              initialWorld Hnone) as (_ & _ & Hlogin & Hframe).
  split; [exact Hlogin|]. apply Hframe. discriminate.
Defined.

Lemma federated_sign_in_settles_witness :
  accountOf
    (onyx (exec (Session.API_settle Fails)
             (exec (Commands.beginGoogleSignIn sampleConstants sampleForms VStr "token")
                initialWorld)))
    !! "errors" = Some (VStr "loginForm.cannotGetAccountDetails").
Proof.
  assert (Hproper : proper (VStr "loginForm.cannotGetAccountDetails"))
    by (split; discriminate).
  assert (Hnone : inflight initialWorld = []) by reflexivity.
  destruct (federated_sign_in_settles sampleConstants sampleForms VStr Hproper true "token"
              initialWorld Hnone) as (_ & _ & _ & H & _).
  exact H.
Defined.

Lemma clearAccountMessages_keeps_other_fields_witness :
  accountOf (onyx (exec Commands.clearAccountMessages initialWorld)) !! "loadingForm"
  = accountOf (onyx initialWorld) !! "loadingForm".
Proof.
  destruct (clearAccountMessages_keeps_other_fields initialWorld) as (_ & _ & _ & _ & H & _).
  apply H; discriminate.
Defined.


Lemma anonymous_user_is_not_signed_out_witness :
  filter is_sign_out_call
    (calls (Session.signOutAndRedirectToSignIn sampleConstants) anonymousWorld) = []
  /\ onyx (exec (Session.signOutAndRedirectToSignIn_initialURL sampleReportID
                   (Some "r/123")) anonymousWorld) Onyx.LAST_OPENED_PUBLIC_ROOM_ID
     = Some (Onyx.EVal (VStr "123")).
Proof.
  assert (Hanonymous : sessionAuthTokenType anonymousWorld = Some "anonymousAccount")
    by reflexivity.
  destruct (anonymous_user_is_not_signed_out sampleConstants sampleReportID 42%nat
              anonymousWorld anonymousWorld (Some "r/123") Hanonymous)
    as (_ & Hcalls & _ & _ & _ & _ & Hroom & _).
  split; [exact Hcalls | exact Hroom].
Defined.

Lemma signed_in_user_is_signed_out_then_redirected_witness :
  length (calls (Session.signOutAndRedirectToSignIn sampleConstants) signedInWorld) = 7%nat.
Proof.
  assert (Hsigned : sessionAuthTokenType signedInWorld <> Some "anonymousAccount")
    by discriminate.
  rewrite (signed_in_user_is_signed_out_then_redirected sampleConstants signedInWorld
             Hsigned).
  reflexivity.
Defined.

Lemma waiter_stays_consistent_witness :
  waiter_consistent
    (exec (signInRun [CallWait; SessionChanged None; CallWait]) initialWorld).
Proof.
  apply waiter_stays_consistent. split.
  - intros p Hp. discriminate Hp.
  - constructor.
Defined.

Lemma reauthentications_are_spaced_witness :
  exists later,
    execution_times Session.reauthenticateWait Session.reauthenticateOptions
      (Lodash.Call 1000 :: tenCalls ++ [Lodash.Call 7000]) Lodash.init
    = 1000 :: later
    /\ spaced 5000 1000 later.
Proof.
  apply (reauthentications_are_spaced 1000 (tenCalls ++ [Lodash.Call 7000])).
  reflexivity.
Defined.

Lemma reauthentication_resumes_witness :
  execution_times Session.reauthenticateWait Session.reauthenticateOptions
    ((Lodash.Call 1000 :: tenCalls) ++ [Lodash.Call 6000]) Lodash.init
  = [1000; 6000].
Proof.
  assert (Hord : ordered 1000 tenCalls = true) by reflexivity.
  assert (Hlate : List.last
                    (execution_times Session.reauthenticateWait
                       Session.reauthenticateOptions (Lodash.Call 1000 :: tenCalls)
                       Lodash.init) 1000 + 5000 <= 6000)
    by (vm_compute; discriminate).
  rewrite (reauthentication_resumes 1000 6000 tenCalls Hord Hlate).
  reflexivity.
Defined.

Lemma instantiated_template_is_open_witness :
  sampleCanAccess "/r/123/details/shareCode" = true.
Proof.
  apply (instantiated_template_is_open sampleConstants sampleReportID sampleParse
           true "r/" "23" "/details/shareCode" "1"%char).
  - reflexivity.
  - cbn [chars]. intros Hin. apply list_elem_of_In in Hin.
    destruct Hin as [H | [H | []]]; discriminate H.
  - discriminate.
  - reflexivity.
  - apply list_elem_of_In. right. right. left. reflexivity.
Defined.

Lemma validate_accepts_iff_witness :
  sampleValidate {[ "ssnLast4" := "1234"; "ssn" := "1234" ]} = ∅.
Proof.
  apply validate_accepts_iff. split.
  - vm_compute. reflexivity.
  - intros ssn Hssn Hne.
    assert (Hvalue : ({[ "ssnLast4" := "1234"; "ssn" := "1234" ]} : gmap string string)
                     !! "ssn" = Some "1234") by (vm_compute; reflexivity).
    rewrite Hvalue in Hssn. injection Hssn as <-. reflexivity.
Defined.

Lemma validate_format_error_wins_witness :
  SocialSecurityNumber.validate "ssn" SocialSecurityNumber.four_digits
    (fun v => negb (SocialSecurityNumber.empty_field v)) "common.error.fieldRequired"
    {[ "ssn" := "12" ]}
  = {[ "ssn" := "bankAccount.error.ssnLast4" ]}.
Proof.
  apply (validate_format_error_wins _ _ _ _ "12").
  - apply lookup_singleton_eq.
  - discriminate.
  - reflexivity.
Defined.
